(** * Fraud scoring scripts: indicator evaluation, aggregation, risk bands

    A shallow embedding of the two scoring scripts
    [enhanced_fraud_scorecard_2025.py] (module [Scorecard]) and
    [fraud_pipeline_2025_with_scoring.py] (module [Pipeline]), and of
    the script that prepares the account profiles,
    [build_account_profiles.py] (module [Profiles]).

    Conventions of the embedding.
    - Numbers are exact: a numeric cell is a rational [Q]; decimal literals
      such as [1.5] or [0.1] denote the rationals they spell.  The only
      transcendental operation, [np.exp], is the real exponential, so the
      logistic branch lives in [R].  Module [Binary64] has the same
      branch in the arithmetic of the program, 64-bit floating point,
      where rounding decides the outcome.
    - A string is a sequence of code points below 256, one [ascii] each.
    - pandas column arithmetic is elementwise, so a script that assigns
      whole columns is embedded as the function it applies to one row.
    - A row is a finite map from column names to cells where the code
      addresses columns by name, and a record of optional fields where
      the code reads a fixed set of columns; [None] means that the
      column does not exist.
    - [df[c]] on a missing column raises [KeyError]; [df.get(c, d)] and
      [row.get(c, d)] return [d]. *)

From Stdlib Require Import ZArith QArith Qabs Qminmax Qreals Reals Psatz List String Ascii.
From Stdlib Require Import Sorting.Sorted Sorting.Permutation.
From Stdlib Require Floats.PrimFloat.
From stdpp Require Import gmap strings list.

Local Open Scope Q_scope.
Local Open Scope string_scope.

(** ** Results of partial operations *)

Inductive error : Type :=
  | KeyError (column : string)
  | ValueError (message : string).

Inductive result (A : Type) : Type :=
  | Ok (a : A)
  | Raise (e : error).
Arguments Ok {A} a.
Arguments Raise {A} e.

#[global] Instance result_ret : MRet result := fun A a => Ok a.
#[global] Instance result_bind : MBind result := fun A B k m =>
  match m with
  | Ok a => k a
  | Raise e => Raise e
  end.

Definition is_ok {A : Type} (m : result A) : bool :=
  match m with Ok _ => true | Raise _ => false end.

(** [df[c]]: indexing by a column name. *)
Definition getitem {A : Type} (row : gmap string A) (c : string) : result A :=
  match row !! c with
  | Some v => Ok v
  | None => Raise (KeyError c)
  end.

(** [df.get(c, d)]: indexing with a default. *)
Definition get {A : Type} (row : gmap string A) (c : string) (d : A) : A :=
  match row !! c with
  | Some v => v
  | None => d
  end.

(** ** Comparisons on rationals, as booleans *)

Definition Qgeb (a b : Q) : bool := Qle_bool b a.
Definition Qleb (a b : Q) : bool := Qle_bool a b.
Definition Qgtb (a b : Q) : bool := negb (Qle_bool a b).
Definition Qltb (a b : Q) : bool := negb (Qle_bool b a).

(** [int(b)] and [.astype(int)] on a boolean. *)
Definition int (b : bool) : Q := if b then 1 else 0.

(** ** Risk bands *)

Inductive RiskBand : Type := LowRisk | MediumRisk | HighRisk.

Definition band_name (b : RiskBand) : string :=
  match b with
  | HighRisk => "High Risk"
  | MediumRisk => "Medium Risk"
  | LowRisk => "Low Risk"
  end.

(** The position of a band in the order Low < Medium < High. *)
Definition tier (b : RiskBand) : nat :=
  match b with
  | LowRisk => 0
  | MediumRisk => 1
  | HighRisk => 2
  end.

(** [band], written identically in both scripts. *)
Definition band (score : Q) : RiskBand :=
  if Qgeb score 71 then HighRisk
  else if Qgeb score 41 then MediumRisk
  else LowRisk.

(** ** Cells that division can produce

    pandas divides a column by zero without raising: the cells become
    [inf], [-inf] or [NaN]. *)

Inductive fval : Type :=
  | Fin (q : Q)
  | PosInf
  | NegInf
  | NaN.

(** [x / y] on a column cell [x] and a scalar [y]. *)
Definition fdiv (x y : Q) : fval :=
  if Qeq_bool y 0 then
    (if Qgtb x 0 then PosInf else if Qltb x 0 then NegInf else NaN)
  else Fin (x / y).

(** [numpy.clip]: [minimum(maximum(x, lo), hi)]; NaN stays NaN. *)
Definition clip (x lo hi : Q) : Q := Qmin (Qmax x lo) hi.

Definition fclip (v : fval) (lo hi : Q) : fval :=
  match v with
  | Fin q => Fin (clip q lo hi)
  | PosInf => Fin hi
  | NegInf => Fin lo
  | NaN => NaN
  end.

Definition fscale (v : fval) (c : Q) : fval :=
  match v with
  | Fin q => Fin (q * c)
  | other => other
  end.

(** [band] on such a cell: every comparison with NaN is false. *)
Definition fband (v : fval) : RiskBand :=
  match v with
  | Fin q => band q
  | PosInf => HighRisk
  | NegInf => LowRisk
  | NaN => LowRisk
  end.

(** The specification's clamp, by cases. *)
Definition clamp (x lo hi : Q) : Q :=
  if Qltb x lo then lo else if Qgtb x hi then hi else x.

(** The weighted sum of an indicator vector, as the specification writes
    it: one term per catalog entry. *)
Fixpoint weighted_sum (weights : list (string * Q)) (value : string -> Q) : Q :=
  match weights with
  | [] => 0
  | (ki, weight) :: rest => weight * value ki + weighted_sum rest value
  end.

(** ** Strings: [str.split(",")] and [str.strip()] *)

(** [s.split(sep)] for a one-character separator: every occurrence
    cuts, empty pieces are kept, and the empty string gives [[""]]. *)
Fixpoint split (sep : ascii) (s : string) : list string :=
  match s with
  | EmptyString => [EmptyString]
  | String c rest =>
      if Ascii.eqb c sep then EmptyString :: split sep rest
      else match split sep rest with
           | w :: ws => String c w :: ws
           | [] => [String c EmptyString]
           end
  end.

(** The characters for which [str.isspace] holds, hence those that
    [str.strip] removes: tab to carriage return (9-13), the four
    separators 28-31, the space (32), next line (133, U+0085) and the
    no-break space (160, U+00A0). *)
Definition is_space (c : ascii) : bool :=
  let n := nat_of_ascii c in
  ((9 <=? n)%nat && (n <=? 13)%nat) || ((28 <=? n)%nat && (n <=? 32)%nat)
  || (n =? 133)%nat || (n =? 160)%nat.

Fixpoint lstrip (s : string) : string :=
  match s with
  | EmptyString => EmptyString
  | String c rest => if is_space c then lstrip rest else s
  end.

Fixpoint rstrip (s : string) : string :=
  match s with
  | EmptyString => EmptyString
  | String c rest =>
      match rstrip rest with
      | EmptyString => if is_space c then EmptyString else String c EmptyString
      | kept => String c kept
      end
  end.

Definition strip (s : string) : string := lstrip (rstrip s).

(** Python's [sum(xs)]: a left fold that starts from [0]. *)
Definition sum (xs : list Q) : Q := fold_left Qplus xs 0.

(** * The enhanced scorecard ([enhanced_fraud_scorecard_2025.py]) *)

Module Scorecard.

(** The country risk scores. *)
Definition country_risk : gmap string Q :=
  list_to_map
    [("USA", 5); ("UK", 5); ("Argentina", 10); ("Brazil", 20);
     ("Nigeria", 30); ("Russia", 30); ("CN", 25); ("IR", 30);
     ("NG", 30); ("KP", 30)].

(** The weight dictionary, in insertion order. *)
Definition ki_weights : list (string * Q) :=
  [("KI01_amt_deviation", 20);
   ("KI02_night_txn", 10);
   ("KI03_new_payee_high_amt", 30);
   ("KI04_burst_txns", 25);
   ("KI05_new_foreign_country", 40);
   ("KI06_new_acct_high_txn", 25);
   ("KI07_large_internal_transfer_no_dualauth", 30);
   ("KI08_payee_risk_low_history", 15)].

(** One row of [transactions_2025_engineered.xlsx]: the columns the
    script reads.  [None] is a column that the sheet does not have. *)
Record Row : Type := {
  REQUESTED_AMOUNT_US_INTL : option Q;
  account_mean_amt : option Q;
  account_std_amt : option Q;
  hour : option Q;
  is_new_party : option bool;
  txn_count_24h : option Q;
  prev_foreign_countries : option string;
  curr_foreign_countries : option string;
  acct_creation_days_ago : option Q;
  approval_flag : option bool;
  payee_usage_count : option Q
}.

(** [df['name']] on a column of the sheet. *)
Definition col {A : Type} (name : string) (cell : option A) : result A :=
  match cell with
  | Some v => Ok v
  | None => Raise (KeyError name)
  end.

(** [row.get(name, "")] followed by [str(...)]. *)
Definition text_or_empty (cell : option string) : string :=
  match cell with
  | Some s => s
  | None => ""
  end.

Definition KI01_amt_deviation (r : Row) : result Q :=
  amount ← col "REQUESTED_AMOUNT_US_INTL" (REQUESTED_AMOUNT_US_INTL r);
  mean ← col "account_mean_amt" (account_mean_amt r);
  std ← col "account_std_amt" (account_std_amt r);
  Ok (int (Qgtb (Qabs (amount - mean)) (2 * std))).

Definition KI02_night_txn (r : Row) : result Q :=
  h ← col "hour" (hour r);
  Ok (int (existsb (Qeq_bool h) [0; 1; 2; 3; 4; 5])).

Definition KI03_new_payee_high_amt (r : Row) : result Q :=
  new_party ← col "is_new_party" (is_new_party r);
  amount ← col "REQUESTED_AMOUNT_US_INTL" (REQUESTED_AMOUNT_US_INTL r);
  Ok (int (new_party && Qgtb amount 10000)).

Definition KI04_burst_txns (r : Row) : result Q :=
  n ← col "txn_count_24h" (txn_count_24h r);
  Ok (int (Qgtb n 4)).

(** The scaling chosen by [compute_ki05_score] from [len(prev_countries)]. *)
Definition scaling (prior_count : nat) : Q :=
  if (prior_count <=? 2)%nat then 1.2
  else if (prior_count <=? 5)%nat then 1.0
  else 0.5.

(** [country_risk.get(c.strip(), 0)] for a table [risk]. *)
Definition risk_of (risk : gmap string Q) (c : string) : Q :=
  get risk (strip c) 0.

(** [compute_ki05_score], with the global table [country_risk] it reads
    made a parameter. *)
Definition compute_ki05_score_with (risk : gmap string Q)
    (prev_foreign_countries curr_foreign_countries : option string) : Q :=
  let prev_countries : gset string :=
    list_to_set (split "," (text_or_empty prev_foreign_countries)) in
  let curr_countries : gset string :=
    list_to_set (split "," (text_or_empty curr_foreign_countries)) in
  let new_countries := curr_countries ∖ prev_countries in
  let scaling := scaling (size prev_countries) in
  let score := sum (risk_of risk <$> elements new_countries) * scaling in
  score.

Definition compute_ki05_score (r : Row) : Q :=
  compute_ki05_score_with country_risk
    (prev_foreign_countries r) (curr_foreign_countries r).

Definition KI05_new_foreign_country_score (r : Row) : result Q :=
  Ok (compute_ki05_score r).

Definition KI05_new_foreign_country (r : Row) : result Q :=
  score ← KI05_new_foreign_country_score r;
  Ok (int (Qgtb score 0)).

Definition KI06_new_acct_high_txn (r : Row) : result Q :=
  age ← col "acct_creation_days_ago" (acct_creation_days_ago r);
  n ← col "txn_count_24h" (txn_count_24h r);
  Ok (int (Qltb age 5 && Qgtb n 3)).

Definition KI07_large_internal_transfer_no_dualauth (r : Row) : result Q :=
  amount ← col "REQUESTED_AMOUNT_US_INTL" (REQUESTED_AMOUNT_US_INTL r);
  approved ← col "approval_flag" (approval_flag r);
  Ok (int (Qgtb amount 100000 && negb approved)).

Definition KI08_payee_risk_low_history (r : Row) : result Q :=
  uses ← col "payee_usage_count" (payee_usage_count r);
  amount ← col "REQUESTED_AMOUNT_US_INTL" (REQUESTED_AMOUNT_US_INTL r);
  Ok (int (Qltb uses 2 && Qgtb amount 7000)).

(** The numeric columns of the frame after feature engineering: the
    nine computed columns next to the numeric and boolean columns of
    the sheet (a boolean counts as 0 or 1 in arithmetic). *)
Definition sheet_columns (r : Row) : gmap string Q :=
  let num (name : string) (cell : option Q) (m : gmap string Q) :=
    match cell with Some v => <[name := v]> m | None => m end in
  let flag (name : string) (cell : option bool) (m : gmap string Q) :=
    match cell with Some b => <[name := int b]> m | None => m end in
  num "REQUESTED_AMOUNT_US_INTL" (REQUESTED_AMOUNT_US_INTL r)
    (num "account_mean_amt" (account_mean_amt r)
    (num "account_std_amt" (account_std_amt r)
    (num "hour" (hour r)
    (flag "is_new_party" (is_new_party r)
    (num "txn_count_24h" (txn_count_24h r)
    (num "acct_creation_days_ago" (acct_creation_days_ago r)
    (flag "approval_flag" (approval_flag r)
    (num "payee_usage_count" (payee_usage_count r) ∅)))))))).

Definition engineer (r : Row) : result (gmap string Q) :=
  ki01 ← KI01_amt_deviation r;
  ki02 ← KI02_night_txn r;
  ki03 ← KI03_new_payee_high_amt r;
  ki04 ← KI04_burst_txns r;
  score ← KI05_new_foreign_country_score r;
  ki05 ← KI05_new_foreign_country r;
  ki06 ← KI06_new_acct_high_txn r;
  ki07 ← KI07_large_internal_transfer_no_dualauth r;
  ki08 ← KI08_payee_risk_low_history r;
  Ok (<["KI08_payee_risk_low_history" := ki08]>
     (<["KI07_large_internal_transfer_no_dualauth" := ki07]>
     (<["KI06_new_acct_high_txn" := ki06]>
     (<["KI05_new_foreign_country" := ki05]>
     (<["KI05_new_foreign_country_score" := score]>
     (<["KI04_burst_txns" := ki04]>
     (<["KI03_new_payee_high_amt" := ki03]>
     (<["KI02_night_txn" := ki02]>
     (<["KI01_amt_deviation" := ki01]> (sheet_columns r)))))))))).

(** Score aggregation: [raw_score] starts at 0, gains [df[ki] * weight]
    for each entry of the weight dictionary in turn, then the dynamic
    score of KI05. *)
Definition raw_score (ki_weights : list (string * Q)) (df : gmap string Q)
    : result Q :=
  acc ← fold_left
          (fun (acc : result Q) '(ki, weight) =>
             a ← acc; v ← getitem df ki; Ok (a + v * weight))
          ki_weights (Ok 0);
  dynamic ← getitem df "KI05_new_foreign_country_score";
  Ok (acc + dynamic).

(** [(raw_score.clip(0, 260) / 260) * 100]. *)
Definition normalized_score (raw : Q) : Q :=
  (clip raw 0 260 / 260) * 100.

Record Scored : Type := {
  columns : gmap string Q;
  scored_raw : Q;
  scored_normalized : Q;
  risk_band : RiskBand
}.

(** The whole script on one row. *)
Definition score_row (r : Row) : result Scored :=
  df ← engineer r;
  raw ← raw_score ki_weights df;
  let normalized := normalized_score raw in
  Ok {| columns := df; scored_raw := raw;
        scored_normalized := normalized; risk_band := band normalized |}.

End Scorecard.

(** * The scoring pipeline ([fraud_pipeline_2025_with_scoring.py]) *)

Module Pipeline.

(** One entry of [account_profiles]; a [NaN] cell of the profile sheet
    (the deviation of an account with a single transaction) is [None]. *)
Record Profile : Type := {
  mean_amt : option Q;
  std_amt : option Q;
  typical_currency : string
}.

(** One row of [transactions_2025.xlsx].  The six columns read with
    [txn['...']] are always there; the columns read with [txn.get] may
    be missing from the sheet ([None]).  A timestamp is a number of
    seconds since 1970-01-01 00:00, local time. *)
Record Txn : Type := {
  ACCOUNT_KEY : Z;
  PARTY_KEY : Z;
  REQUESTED_AMOUNT_US_INTL : Q;
  TRANSACTION_LOCAL_DATE_TIME : Z;
  CHANNEL : string;
  CURRENCY_CD : string;
  activity_days_ago : option Q;
  txn_sum_24h : option Q;
  country_cd : option string;
  is_first_foreign_txn : option bool;
  acct_creation_days_ago : option Q;
  txn_count_24h : option Q;
  unique_payees_24h : option Q;
  payee_usage_count : option Q;
  large_txns_2h : option Q;
  is_known_name_new_account : option bool;
  approval_flag : option bool
}.

(** The value of [account_context[acct]]. *)
Record Context : Type := {
  last_txn_time : Z;
  parties_seen : gset Z;
  txn_times : list Z
}.

(** One element of [results]: the four identifying columns and [kis]. *)
Record Result : Type := {
  result_account : Z;
  result_party : Z;
  result_amount : Q;
  result_time : Z;
  result_kis : gmap string Q
}.

(** The weight configuration, in insertion order. *)
Definition ki_weights : list (string * Q) :=
  [("KI01", 2.0); ("KI02", 1.5); ("KI03", 2.0); ("KI04", 2.0); ("KI05", 1.5);
   ("KI06", 2.0); ("KI07", 1.5); ("KI08", 1.5); ("KI09", 1.5); ("KI10", 1.5);
   ("KI11", 2.0); ("KI12", 2.0); ("KI14", 2.0); ("KI18", 1.0); ("KI19", 2.0)].

(** [txn.get(name, default)]. *)
Definition txn_get {A : Type} (cell : option A) (default : A) : A :=
  match cell with
  | Some v => v
  | None => default
  end.

(** [txn.get('country_cd') in codes]; the default [None] is in no list. *)
Definition country_in (cell : option string) (codes : list string) : bool :=
  match cell with
  | Some c => existsb (String.eqb c) codes
  | None => false
  end.

(** [now.hour] and [now.dayofweek] (Monday is 0; day 0 was a Thursday). *)
Definition hour_of (now : Z) : Z := (now / 3600) mod 24.
Definition dayofweek (now : Z) : Z := (now / 86400 + 3) mod 7.

(** [s.lower()] on one character: the capitals A-Z (65-90) and the
    accented capitals 192-222, the multiplication sign 215 apart, move
    up by 32; every other character stays. *)
Definition lower_ascii (c : ascii) : ascii :=
  let n := nat_of_ascii c in
  if (((65 <=? n)%nat && (n <=? 90)%nat)
      || ((192 <=? n)%nat && (n <=? 222)%nat && negb (n =? 215)%nat))%bool
  then ascii_of_nat (n + 32) else c.

Fixpoint lower (s : string) : string :=
  match s with
  | EmptyString => EmptyString
  | String c rest => String (lower_ascii c) (lower rest)
  end.

(** [abs(amount - mean) > 2 * std]; false as soon as a side is NaN. *)
Definition deviates (amount : Q) (profile : Profile) : bool :=
  match mean_amt profile, std_amt profile with
  | Some mean, Some std => Qgtb (Qabs (amount - mean)) (2 * std)
  | _, _ => false
  end.

(** [account_profiles.get(acct, {...defaults...})]. *)
Definition profile_of (account_profiles : gmap Z Profile) (txn : Txn) : Profile :=
  match account_profiles !! ACCOUNT_KEY txn with
  | Some p => p
  | None => {| mean_amt := Some 0; std_amt := Some 1;
               typical_currency := CURRENCY_CD txn |}
  end.

(** The context a first transaction of an account starts from
    ([timedelta(hours=2)] is 7200 seconds). *)
Definition fresh_context (now : Z) : Context :=
  {| last_txn_time := now - 7200; parties_seen := ∅; txn_times := [] |}.

(** The body of the loop between [kis = {}] and [result = ...]. *)
Definition kis (txn : Txn) (profile : Profile) (context : Context)
    : gmap string Q :=
  let now := TRANSACTION_LOCAL_DATE_TIME txn in
  let hour := hour_of now in
  let party := PARTY_KEY txn in
  let amount := REQUESTED_AMOUNT_US_INTL txn in
  let channel := CHANNEL txn in
  let ki01 := int (deviates amount profile) in
  let ki02 := int (Qgtb (txn_get (activity_days_ago txn) 0) 30) in
  let ki03 := int (bool_decide (party ∉ parties_seen context)
                   && Qgtb amount 10000) in
  let ki04 := int (Qgtb (txn_get (txn_sum_24h txn) 0) 50000) in
  let ki05 := int (country_in (country_cd txn) ["IR"; "RU"; "NG"; "CN"]
                   && txn_get (is_first_foreign_txn txn) false) in
  let ki06 := int (Qleb (txn_get (acct_creation_days_ago txn) 100) 3
                   && Qgtb (txn_get (txn_count_24h txn) 0) 3) in
  let ki07 := int (Qgtb (txn_get (unique_payees_24h txn) 0) 3) in
  let ki08 := int (Qleb (txn_get (acct_creation_days_ago txn) 100) 7
                   && Qgtb (txn_get (txn_count_24h txn) 0) 2) in
  let ki09 := int (existsb (String.eqb (lower channel)) ["mobile"; "web"]
                   && Qgtb amount 5000) in
  let ki10 := int (Qltb (txn_get (payee_usage_count txn) 10) 2
                   && Qgtb amount 5000) in
  let ki11 := int (country_in (country_cd txn) ["IR"; "RU"; "NG"; "CN"; "KP"]) in
  let ki12 := int (Qgtb (txn_get (large_txns_2h txn) 0) 2) in
  let ki14 := int (txn_get (is_known_name_new_account txn) false) in
  let ki18 := int (existsb (Z.eqb hour) [0; 1; 2; 3; 4; 5]%Z
                   || (5 <=? dayofweek now)%Z) in
  let ki19 := int (Qgtb amount 100000
                   && negb (txn_get (approval_flag txn) true)) in
  <["KI19" := ki19]> (<["KI18" := ki18]> (<["KI14" := ki14]>
  (<["KI12" := ki12]> (<["KI11" := ki11]> (<["KI10" := ki10]>
  (<["KI09" := ki09]> (<["KI08" := ki08]> (<["KI07" := ki07]>
  (<["KI06" := ki06]> (<["KI05" := ki05]> (<["KI04" := ki04]>
  (<["KI03" := ki03]> (<["KI02" := ki02]> (<["KI01" := ki01]> ∅)))))))))))))).

(** The state the loop threads: the dictionary [account_context] and
    the list [results]. *)
Record State : Type := {
  account_context : gmap Z Context;
  results : list Result
}.

Definition initial : State := {| account_context := ∅; results := [] |}.

(** [account_context[acct]] once the [if acct not in account_context]
    block has run. *)
Definition context_of (account_context : gmap Z Context) (txn : Txn) : Context :=
  match account_context !! ACCOUNT_KEY txn with
  | Some context => context
  | None => fresh_context (TRANSACTION_LOCAL_DATE_TIME txn)
  end.

(** The three assignments that end the loop body; [context] is the
    object stored in the dictionary, so they change the dictionary. *)
Definition update (context : Context) (txn : Txn) : Context :=
  let now := TRANSACTION_LOCAL_DATE_TIME txn in
  {| last_txn_time := now;
     txn_times := txn_times context ++ [now];
     parties_seen := parties_seen context ∪ {[PARTY_KEY txn]} |}.

(** One iteration of the transaction loop. *)
Definition step (account_profiles : gmap Z Profile) (st : State) (txn : Txn)
    : State :=
  let acct := ACCOUNT_KEY txn in
  let profile := profile_of account_profiles txn in
  let context := context_of (account_context st) txn in
  let result :=
    {| result_account := acct;
       result_party := PARTY_KEY txn;
       result_amount := REQUESTED_AMOUNT_US_INTL txn;
       result_time := TRANSACTION_LOCAL_DATE_TIME txn;
       result_kis := kis txn profile context |} in
  {| account_context := <[acct := update context txn]> (account_context st);
     results := results st ++ [result] |}.

(** The loop over [df.iterrows()]. *)
Definition loop (account_profiles : gmap Z Profile) (df : list Txn) : State :=
  fold_left (step account_profiles) df initial.

(** The order of [df.sort_values(by=['ACCOUNT_KEY',
    'TRANSACTION_LOCAL_DATE_TIME'])]: account first, then time. *)
Definition key_leb (a b : Txn) : bool :=
  (ACCOUNT_KEY a <? ACCOUNT_KEY b)%Z
  || ((ACCOUNT_KEY a =? ACCOUNT_KEY b)%Z
      && (TRANSACTION_LOCAL_DATE_TIME a <=? TRANSACTION_LOCAL_DATE_TIME b)%Z).

(** Sorting on several columns is stable: rows with equal keys keep
    their order. *)
Fixpoint insert_sorted (t : Txn) (sorted : list Txn) : list Txn :=
  match sorted with
  | [] => [t]
  | u :: rest =>
      if key_leb t u then t :: u :: rest else u :: insert_sorted t rest
  end.

Definition sort_values (df : list Txn) : list Txn :=
  foldr insert_sorted [] df.

(** The numeric columns of [pd.DataFrame(results)] in one row. *)
Definition frame_row (r : Result) : gmap string Q :=
  <["REQUESTED_AMOUNT_US_INTL" := result_amount r]>
    (<["PARTY_KEY" := inject_Z (result_party r)]>
    (<["ACCOUNT_KEY" := inject_Z (result_account r)]> (result_kis r))).

(** [df["raw_score"]]: the sum of [df.get(ki, 0) * weight] over the
    items of [ki_weights]. *)
Definition raw_score (df : gmap string Q) (ki_weights : list (string * Q)) : Q :=
  sum ((fun '(ki, weight) => get df ki 0 * weight) <$> ki_weights).

(** The minmax branch. *)
Definition minmax (raw min_score max_score : Q) : fval :=
  fscale (fclip (fdiv (raw - min_score) (max_score - min_score)) 0 1) 100.

(** The logistic branch in exact arithmetic, on the reals. *)
Definition logistic (raw : R) : R :=
  ((1 / (1 + exp (- 0.1 * (raw - 5)))) * 100)%R.

(** [band] on a real score. *)
Definition band_real (score : R) : RiskBand :=
  if Rle_dec 71 score then HighRisk
  else if Rle_dec 41 score then MediumRisk
  else LowRisk.

(** A row of the frame that [compute_fraud_scores] returns, with the
    three columns it adds. *)
Record Scored (N : Type) : Type := {
  row : gmap string Q;
  scored_raw : Q;
  normalized_score : N;
  risk_band : RiskBand
}.
Arguments row {N} _.
Arguments scored_raw {N} _.
Arguments normalized_score {N} _.
Arguments risk_band {N} _.

Inductive Frame : Type :=
  | MinmaxFrame (rows : list (Scored fval))
  | LogisticFrame (rows : list (Scored R)).

Definition score_minmax (ki_weights : list (string * Q))
    (min_score max_score : Q) (df : gmap string Q) : Scored fval :=
  let raw := raw_score df ki_weights in
  let normalized := minmax raw min_score max_score in
  {| row := df; scored_raw := raw;
     normalized_score := normalized; risk_band := fband normalized |}.

Definition score_logistic (ki_weights : list (string * Q))
    (df : gmap string Q) : Scored R :=
  let raw := raw_score df ki_weights in
  let normalized := logistic (Q2R raw) in
  {| row := df; scored_raw := raw;
     normalized_score := normalized; risk_band := band_real normalized |}.

Definition compute_fraud_scores (df : list (gmap string Q))
    (ki_weights : list (string * Q)) (normalization_method : string)
    (min_score max_score : Q) : result Frame :=
  if String.eqb normalization_method "minmax" then
    Ok (MinmaxFrame (score_minmax ki_weights min_score max_score <$> df))
  else if String.eqb normalization_method "logistic" then
    Ok (LogisticFrame (score_logistic ki_weights <$> df))
  else Raise (ValueError "Unsupported normalization method").

(** The script from the sort to the scored frame. *)
Definition main (account_profiles : gmap Z Profile) (df : list Txn)
    : result Frame :=
  let df := sort_values df in
  let results := results (loop account_profiles df) in
  compute_fraud_scores (frame_row <$> results) ki_weights "minmax" 0 20.

End Pipeline.

(** * The logistic branch in the arithmetic of the program *)

Module Binary64.
Import PrimFloat.
Local Open Scope float_scope.

(** Line 29 of the pipeline on one cell, every operation rounded to
    64-bit floating point; [np.exp] is a parameter. *)
Definition logistic (np_exp : float -> float) (raw : float) : float :=
  (1 / (1 + np_exp (-0.1 * (raw - 5)))) * 100.

(** Its two halves: the argument handed to [np.exp], and what is done
    with the value [np.exp] returns. *)
Definition logistic_exponent (raw : float) : float := -0.1 * (raw - 5).

Definition logistic_of_exp (e : float) : float := (1 / (1 + e)) * 100.

(** The values of [np.exp] at -39.5 and at -49.5: the 64-bit numbers
    nearest to e^-39.5 = 7.004...e-18 and e^-49.5 = 3.179...e-22. *)
Definition exp_minus_39_5 : float := 0x1.026a3c0738cffp-57.
Definition exp_minus_49_5 : float := 0x1.806f55208ce4fp-72.

End Binary64.

(** * The profile builder ([build_account_profiles.py]) *)

Module Profiles.

(** One row of [transactions_2024.xlsx]: the three columns the script
    uses.  The amount is [None] when [pd.to_numeric(...,
    errors='coerce')] made it NaN, the currency is [None] for an empty
    cell. *)
Record Txn : Type := {
  ACCOUNT_KEY : Z;
  REQUESTED_AMOUNT_US_INTL : option Q;
  CURRENCY_CD : option string
}.

(** One row of [account_profiles_model.csv].  The deviation is a
    square root, hence a real number; [None] is NaN. *)
Record Profile : Type := {
  account : Z;
  mean_amt : option Q;
  std_amt : option R;
  typical_currency : string
}.

(** The number of values, as a rational. *)
Definition count (xs : list Q) : Q := inject_Z (Z.of_nat (length xs)).

(** ["mean"]: NaN cells are skipped by the caller; no value gives NaN. *)
Definition mean (xs : list Q) : option Q :=
  match xs with
  | [] => None
  | _ => Some (sum xs / count xs)
  end.

(** ["std"]: the sample deviation (one degree of freedom less), NaN
    below two values. *)
Definition std (xs : list Q) : option R :=
  match mean xs with
  | Some m =>
      if (length xs <? 2)%nat then None
      else Some (sqrt (Q2R (sum ((fun x => (x - m) * (x - m)) <$> xs)
                            / (count xs - 1))))
  | None => None
  end.

(** How often [v] occurs. *)
Definition occurs (v : string) (values : list string) : nat :=
  length (filter (fun w => w = v) values).

(** [v] is a better mode than [best]: more frequent, or as frequent and
    earlier in the sorted output of [mode()]. *)
Definition better (values : list string) (v best : string) : bool :=
  (occurs best values <? occurs v values)%nat
  || ((occurs v values =? occurs best values)%nat && String.ltb v best).

(** [x.mode().iloc[0]], if there is one. *)
Definition mode (values : list string) : option string :=
  foldr (fun v best =>
           match best with
           | None => Some v
           | Some b => if better values v b then Some v else Some b
           end)
        None values.

(** The lambda of the aggregation: the mode of the non-empty cells, or
    ["USD"]. *)
Definition typical (cells : list (option string)) : string :=
  match mode (omap (fun cell => cell) cells) with
  | Some c => c
  | None => "USD"
  end.

(** The group keys: every account once, in ascending order. *)
Fixpoint insert_key (k : Z) (keys : list Z) : list Z :=
  match keys with
  | [] => [k]
  | h :: rest =>
      if (k <? h)%Z then k :: h :: rest
      else if (k =? h)%Z then h :: rest
      else h :: insert_key k rest
  end.

Definition accounts (df : list Txn) : list Z :=
  foldr insert_key [] (ACCOUNT_KEY <$> df).

(** The rows of one group. *)
Definition group (acct : Z) (df : list Txn) : list Txn :=
  filter (fun t => ACCOUNT_KEY t = acct) df.

(** [groupby("ACCOUNT_KEY").agg({...}).reset_index()]. *)
Definition profiles (df_2024 : list Txn) : list Profile :=
  (fun acct =>
     let rows := group acct df_2024 in
     let amounts := omap REQUESTED_AMOUNT_US_INTL rows in
     {| account := acct;
        mean_amt := mean amounts;
        std_amt := std amounts;
        typical_currency := typical (CURRENCY_CD <$> rows) |})
    <$> accounts df_2024.

End Profiles.

(** * Vocabulary of the statements *)

(** The [raw_score] column of a scored frame. *)
Definition raw_column (frame : Pipeline.Frame) : list Q :=
  match frame with
  | Pipeline.MinmaxFrame rows => Pipeline.scored_raw <$> rows
  | Pipeline.LogisticFrame rows => Pipeline.scored_raw <$> rows
  end.

(** Two runs of the aggregator agree on the raw scores: both raise the
    same error, or both return frames whose [raw_score] columns are
    equal cell by cell. *)
Definition same_raw_scores (a b : result Pipeline.Frame) : Prop :=
  match a, b with
  | Ok fa, Ok fb => Forall2 Qeq (raw_column fa) (raw_column fb)
  | Raise ea, Raise eb => ea = eb
  | _, _ => False
  end.

(** The weight catalog without the entries of one indicator. *)
Definition without (ki : string) (weights : list (string * Q))
    : list (string * Q) :=
  filter (fun entry => entry.1 <> ki) weights.


(** The columns of the pipeline's sheet that the loop reads with
    [txn.get]. *)
Inductive OptionalField : Type :=
  | F_activity_days_ago
  | F_txn_sum_24h
  | F_country_cd
  | F_is_first_foreign_txn
  | F_acct_creation_days_ago
  | F_txn_count_24h
  | F_unique_payees_24h
  | F_payee_usage_count
  | F_large_txns_2h
  | F_is_known_name_new_account
  | F_approval_flag.

(** The column is missing from the sheet. *)
Definition absent (f : OptionalField) (txn : Pipeline.Txn) : Prop :=
  match f with
  | F_activity_days_ago => Pipeline.activity_days_ago txn = None
  | F_txn_sum_24h => Pipeline.txn_sum_24h txn = None
  | F_country_cd => Pipeline.country_cd txn = None
  | F_is_first_foreign_txn => Pipeline.is_first_foreign_txn txn = None
  | F_acct_creation_days_ago => Pipeline.acct_creation_days_ago txn = None
  | F_txn_count_24h => Pipeline.txn_count_24h txn = None
  | F_unique_payees_24h => Pipeline.unique_payees_24h txn = None
  | F_payee_usage_count => Pipeline.payee_usage_count txn = None
  | F_large_txns_2h => Pipeline.large_txns_2h txn = None
  | F_is_known_name_new_account =>
      Pipeline.is_known_name_new_account txn = None
  | F_approval_flag => Pipeline.approval_flag txn = None
  end.

(** The indicators whose rule reads the column. *)
Definition readers (f : OptionalField) : list string :=
  match f with
  | F_activity_days_ago => ["KI02"]
  | F_txn_sum_24h => ["KI04"]
  | F_country_cd => ["KI05"; "KI11"]
  | F_is_first_foreign_txn => ["KI05"]
  | F_acct_creation_days_ago => ["KI06"; "KI08"]
  | F_txn_count_24h => ["KI06"; "KI08"]
  | F_unique_payees_24h => ["KI07"]
  | F_payee_usage_count => ["KI10"]
  | F_large_txns_2h => ["KI12"]
  | F_is_known_name_new_account => ["KI14"]
  | F_approval_flag => ["KI19"]
  end.

(** The names of the indicators the loop evaluates. *)
Definition indicator_names : list string :=
  ["KI01"; "KI02"; "KI03"; "KI04"; "KI05"; "KI06"; "KI07"; "KI08";
   "KI09"; "KI10"; "KI11"; "KI12"; "KI14"; "KI18"; "KI19"].

(** The parties of the transactions of account [acct] among [earlier]. *)
Definition seen_before (acct : Z) (earlier : list Pipeline.Txn) : gset Z :=
  list_to_set
    (Pipeline.PARTY_KEY
       <$> filter (fun u => Pipeline.ACCOUNT_KEY u = acct) earlier).

(** The parties recorded for [acct] in the context dictionary. *)
Definition parties_of (contexts : gmap Z Pipeline.Context) (acct : Z)
    : gset Z :=
  match contexts !! acct with
  | Some context => Pipeline.parties_seen context
  | None => ∅
  end.

(** Indicator [ki] of the [i]-th result row. *)
Definition ki_at (rows : list Pipeline.Result) (i : nat) (ki : string)
    : option Q :=
  r ← rows !! i; Pipeline.result_kis r !! ki.

(** The result row that the loop appends for [txn] when it finds the
    contexts [contexts]. *)
Definition result_of (account_profiles : gmap Z Pipeline.Profile)
    (contexts : gmap Z Pipeline.Context) (txn : Pipeline.Txn)
    : Pipeline.Result :=
  {| Pipeline.result_account := Pipeline.ACCOUNT_KEY txn;
     Pipeline.result_party := Pipeline.PARTY_KEY txn;
     Pipeline.result_amount := Pipeline.REQUESTED_AMOUNT_US_INTL txn;
     Pipeline.result_time := Pipeline.TRANSACTION_LOCAL_DATE_TIME txn;
     Pipeline.result_kis :=
       Pipeline.kis txn (Pipeline.profile_of account_profiles txn)
         (Pipeline.context_of contexts txn) |}.

(** The sort order as a relation. *)
Definition key_le (a b : Pipeline.Txn) : Prop :=
  Pipeline.key_leb a b = true.

(** The identifying columns of a transaction and of a result row. *)
Definition txn_id (t : Pipeline.Txn) : Z * Z * Q * Z :=
  (Pipeline.ACCOUNT_KEY t, Pipeline.PARTY_KEY t,
   Pipeline.REQUESTED_AMOUNT_US_INTL t,
   Pipeline.TRANSACTION_LOCAL_DATE_TIME t).

Definition result_id (r : Pipeline.Result) : Z * Z * Q * Z :=
  (Pipeline.result_account r, Pipeline.result_party r,
   Pipeline.result_amount r, Pipeline.result_time r).

(** A transaction of the given account, party, amount and time on a
    sheet that has none of the optional columns. *)
Definition bare_txn (acct party : Z) (amount : Q) (time : Z) : Pipeline.Txn :=
  {| Pipeline.ACCOUNT_KEY := acct;
     Pipeline.PARTY_KEY := party;
     Pipeline.REQUESTED_AMOUNT_US_INTL := amount;
     Pipeline.TRANSACTION_LOCAL_DATE_TIME := time;
     Pipeline.CHANNEL := "branch";
     Pipeline.CURRENCY_CD := "USD";
     Pipeline.activity_days_ago := None;
     Pipeline.txn_sum_24h := None;
     Pipeline.country_cd := None;
     Pipeline.is_first_foreign_txn := None;
     Pipeline.acct_creation_days_ago := None;
     Pipeline.txn_count_24h := None;
     Pipeline.unique_payees_24h := None;
     Pipeline.payee_usage_count := None;
     Pipeline.large_txns_2h := None;
     Pipeline.is_known_name_new_account := None;
     Pipeline.approval_flag := None |}.

(** The sum of a list of numbers, term by term. *)
Fixpoint total (xs : list Q) : Q :=
  match xs with
  | [] => 0
  | x :: rest => x + total rest
  end.

(** The sets that [compute_ki05_score] builds from the two columns. *)
Definition countries (cell : option string) : gset string :=
  list_to_set (split "," (Scorecard.text_or_empty cell)).

(** The sum of the weights of a catalog. *)
Definition total_weight (weights : list (string * Q)) : Q :=
  total (snd <$> weights).

(** Every weight is non-negative and every indicator the catalog names
    has a value between 0 and 1 in the row (a missing column counts as
    0). *)
Definition bounded_indicators (df : gmap string Q)
    (weights : list (string * Q)) : Prop :=
  Forall (fun entry : string * Q =>
            0 <= entry.2 /\ 0 <= get df entry.1 0 /\ get df entry.1 0 <= 1)
         weights.

(** The rows of a frame scored by minmax. *)
Definition minmax_rows (frame : result Pipeline.Frame)
    : list (Pipeline.Scored fval) :=
  match frame with
  | Ok (Pipeline.MinmaxFrame rows) => rows
  | _ => []
  end.

(** The transactions of one account, in the order given. *)
Definition account_txns (acct : Z) (txns : list Pipeline.Txn)
    : list Pipeline.Txn :=
  filter (fun u => Pipeline.ACCOUNT_KEY u = acct) txns.

(** What the context dictionary should hold for [acct] once the loop
    has visited [txns]: nothing if the account has no transaction
    there, otherwise the time of its last transaction, the set of its
    parties and the list of its times. *)
Definition context_after (acct : Z) (txns : list Pipeline.Txn)
    : option Pipeline.Context :=
  match last (account_txns acct txns) with
  | None => None
  | Some latest =>
      Some {| Pipeline.last_txn_time :=
                Pipeline.TRANSACTION_LOCAL_DATE_TIME latest;
              Pipeline.parties_seen := seen_before acct txns;
              Pipeline.txn_times :=
                Pipeline.TRANSACTION_LOCAL_DATE_TIME
                  <$> account_txns acct txns |}
  end.

(** Rows with the sort key of [t]. *)
Definition same_key (t u : Pipeline.Txn) : Prop :=
  Pipeline.ACCOUNT_KEY u = Pipeline.ACCOUNT_KEY t /\
  Pipeline.TRANSACTION_LOCAL_DATE_TIME u
  = Pipeline.TRANSACTION_LOCAL_DATE_TIME t.

#[global] Instance same_key_dec (t u : Pipeline.Txn) : Decision (same_key t u).
Proof. unfold same_key. apply _. Defined.

(** The columns the scorecard indexes directly, in the order in which
    the script first reads them, each with whether the sheet has it. *)
Definition required_columns (r : Scorecard.Row) : list (string * bool) :=
  [("REQUESTED_AMOUNT_US_INTL",
    bool_decide (is_Some (Scorecard.REQUESTED_AMOUNT_US_INTL r)));
   ("account_mean_amt", bool_decide (is_Some (Scorecard.account_mean_amt r)));
   ("account_std_amt", bool_decide (is_Some (Scorecard.account_std_amt r)));
   ("hour", bool_decide (is_Some (Scorecard.hour r)));
   ("is_new_party", bool_decide (is_Some (Scorecard.is_new_party r)));
   ("txn_count_24h", bool_decide (is_Some (Scorecard.txn_count_24h r)));
   ("acct_creation_days_ago",
    bool_decide (is_Some (Scorecard.acct_creation_days_ago r)));
   ("approval_flag", bool_decide (is_Some (Scorecard.approval_flag r)));
   ("payee_usage_count",
    bool_decide (is_Some (Scorecard.payee_usage_count r)))].

(** The first of them that the sheet lacks. *)
Definition first_missing (r : Scorecard.Row) : option string :=
  fst <$> find (fun column : string * bool => negb column.2)
               (required_columns r).

(** [",".join(pieces)], for a separator of one character. *)
Fixpoint join (sep : ascii) (pieces : list string) : string :=
  match pieces with
  | [] => EmptyString
  | [piece] => piece
  | piece :: rest => piece ++ String sep (join sep rest)
  end.

(** The number of occurrences of a character in a string. *)
Fixpoint occurrences (c : ascii) (s : string) : nat :=
  match s with
  | EmptyString => 0
  | String d rest =>
      (if Ascii.eqb d c then 1 else 0) + occurrences c rest
  end.

(** Amounts that are whole numbers of at most a billion, at most a
    million of them: their sums are computed without rounding. *)
Definition whole_amounts (xs : list Q) : Prop :=
  Forall (fun x => exists z : Z, x = inject_Z z /\ (Z.abs z <= 1000000000)%Z)
         xs /\
  (Z.of_nat (length xs) <= 1000000)%Z.

(** * Properties *)

(** ** Boolean comparisons against their propositions *)

Lemma Qgeb_true (a b : Q) : Qgeb a b = true <-> b <= a.
Proof. unfold Qgeb. apply Qle_bool_iff. Qed.

Lemma Qgeb_false (a b : Q) : Qgeb a b = false <-> a < b.
Proof.
  unfold Qgeb. rewrite <- not_true_iff_false, Qle_bool_iff.
  split; [apply Qnot_le_lt | apply Qlt_not_le].
Qed.

Lemma Qgtb_true (a b : Q) : Qgtb a b = true <-> b < a.
Proof.
  unfold Qgtb. rewrite negb_true_iff. apply (Qgeb_false b a).
Qed.

Lemma Qgtb_false (a b : Q) : Qgtb a b = false <-> a <= b.
Proof.
  unfold Qgtb. rewrite negb_false_iff. apply Qle_bool_iff.
Qed.

Lemma Qltb_true (a b : Q) : Qltb a b = true <-> a < b.
Proof. apply (Qgtb_true b a). Qed.

Lemma Qltb_false (a b : Q) : Qltb a b = false <-> b <= a.
Proof. apply (Qgtb_false b a). Qed.

Lemma Qleb_true (a b : Q) : Qleb a b = true <-> a <= b.
Proof. apply Qle_bool_iff. Qed.

(** Case analysis on one boolean comparison, leaving its meaning as a
    hypothesis for [lra]. *)
Ltac case_cmp c :=
  let E := fresh "Hcmp" in
  destruct c eqn:E;
  [ first [ apply Qgeb_true in E | apply Qgtb_true in E
          | apply Qltb_true in E | apply Qleb_true in E ]
  | first [ apply Qgeb_false in E | apply Qgtb_false in E
          | apply Qltb_false in E ] ].

(** ** Risk bands *)

Lemma band_high (s : Q) : 71 <= s -> band s = HighRisk.
Proof.
  intros H. unfold band. case_cmp (Qgeb s 71); [reflexivity | exfalso; lra].
Qed.

Lemma band_medium (s : Q) : 41 <= s -> s < 71 -> band s = MediumRisk.
Proof.
  intros H1 H2. unfold band.
  case_cmp (Qgeb s 71); [exfalso; lra |].
  case_cmp (Qgeb s 41); [reflexivity | exfalso; lra].
Qed.

Lemma band_low (s : Q) : s < 41 -> band s = LowRisk.
Proof.
  intros H. unfold band.
  case_cmp (Qgeb s 71); [exfalso; lra |].
  case_cmp (Qgeb s 41); [exfalso; lra | reflexivity].
Qed.

Lemma band_monotone (s1 s2 : Q) :
  s1 <= s2 -> (tier (band s1) <= tier (band s2))%nat.
Proof.
  intros H. unfold band.
  case_cmp (Qgeb s1 71); case_cmp (Qgeb s2 71);
    try case_cmp (Qgeb s1 41); try case_cmp (Qgeb s2 41);
    simpl; first [lia | exfalso; lra].
Qed.

(** C2. The band of a normalized score [s] is High when [s >= 71],
    Medium when [41 <= s < 71] and Low otherwise, with the lower bound
    of each band included ([band 71] is High, [band 41] is Medium); and
    a smaller score never gets a higher tier than a larger one.  Both
    scripts define [band] by the same text. *)
Theorem band_is_lower_inclusive_step_function :
  (forall s : Q, 71 <= s -> band s = HighRisk) /\
  (forall s : Q, 41 <= s -> s < 71 -> band s = MediumRisk) /\
  (forall s : Q, s < 41 -> band s = LowRisk) /\
  band 71 = HighRisk /\
  band 41 = MediumRisk /\
  (forall s1 s2 : Q, s1 < s2 -> (tier (band s1) <= tier (band s2))%nat).
Proof.
  repeat split.
  - apply band_high.
  - apply band_medium.
  - apply band_low.
  - intros s1 s2 H. apply band_monotone. lra.
Qed.

Lemma band_is_lower_inclusive_step_function_witness :
  band 85 = HighRisk /\ band 55.5 = MediumRisk /\ band 40.9 = LowRisk /\
  (tier (band 40.9) <= tier (band 41))%nat.
Proof.
  destruct band_is_lower_inclusive_step_function
    as (Hhigh & Hmedium & Hlow & _ & _ & Hmono).
  split; [apply Hhigh; lra |].
  split; [apply Hmedium; lra |].
  split; [apply Hlow; lra |].
  apply Hmono. lra.
Defined.

(** On a rational score the real-valued [band] is the same function. *)
Lemma band_real_Q2R (s : Q) : Pipeline.band_real (Q2R s) = band s.
Proof.
  unfold Pipeline.band_real, band.
  replace 71%R with (Q2R 71) by (unfold Q2R; simpl; lra).
  replace 41%R with (Q2R 41) by (unfold Q2R; simpl; lra).
  case_cmp (Qgeb s 71).
  - destruct (Rle_dec (Q2R 71) (Q2R s)) as [_ | n]; [reflexivity |].
    exfalso. apply n. now apply Qle_Rle.
  - destruct (Rle_dec (Q2R 71) (Q2R s)) as [l | _].
    + apply Rle_Qle in l. exfalso; lra.
    + case_cmp (Qgeb s 41).
      * destruct (Rle_dec (Q2R 41) (Q2R s)) as [_ | n]; [reflexivity |].
        exfalso. apply n. now apply Qle_Rle.
      * destruct (Rle_dec (Q2R 41) (Q2R s)) as [l | _]; [| reflexivity].
        apply Rle_Qle in l. exfalso; lra.
Qed.

(** ** Minmax normalization *)

Lemma clip_cases (x lo hi : Q) :
  lo <= hi ->
  (x < lo /\ clip x lo hi == lo) \/
  (lo <= x /\ x <= hi /\ clip x lo hi == x) \/
  (hi < x /\ clip x lo hi == hi).
Proof.
  intros Hle. unfold clip.
  destruct (Q.max_spec x lo) as [[Hlt Hmax] | [Hge Hmax]];
    destruct (Q.min_spec (Qmax x lo) hi) as [[Hlt' Hmin] | [Hge' Hmin]];
    rewrite Hmin; rewrite Hmax in *.
  - left. split; [exact Hlt | reflexivity].
  - left. split; [exact Hlt | lra].
  - right; left. split; [exact Hge | split; [lra | reflexivity]].
  - destruct (Qlt_le_dec hi x) as [Hhi | Hhi].
    + right; right. split; [exact Hhi | reflexivity].
    + right; left. split; [exact Hge | split; [exact Hhi | lra]].
Qed.

(** numpy's clip is the clamp of the specification. *)
Lemma clip_clamp (x lo hi : Q) : lo <= hi -> clip x lo hi == clamp x lo hi.
Proof.
  intros Hle. unfold clamp.
  destruct (clip_cases x lo hi Hle) as [[H1 E] | [(H1 & H2 & E) | [H1 E]]];
    rewrite E.
  - case_cmp (Qltb x lo); [reflexivity | exfalso; lra].
  - case_cmp (Qltb x lo); [exfalso; lra |].
    case_cmp (Qgtb x hi); [lra | reflexivity].
  - case_cmp (Qltb x lo); [exfalso; lra |].
    case_cmp (Qgtb x hi); [reflexivity | exfalso; lra].
Qed.

Lemma fdiv_nonzero (x y : Q) : ~ y == 0 -> fdiv x y = Fin (x / y).
Proof.
  intros Hy. unfold fdiv.
  destruct (Qeq_bool y 0) eqn:E; [| reflexivity].
  apply Qeq_bool_iff in E. contradiction.
Qed.

Lemma minmax_valid_bounds (raw min_score max_score : Q) :
  min_score < max_score ->
  Pipeline.minmax raw min_score max_score
  = Fin (clip ((raw - min_score) / (max_score - min_score)) 0 1 * 100).
Proof.
  intros Hlt. unfold Pipeline.minmax.
  rewrite fdiv_nonzero by lra. reflexivity.
Qed.

(** The scorecard's [clip(0, 260) / 260 * 100] is minmax normalization
    with the bounds 0 and 260. *)
Lemma scorecard_normalized_is_minmax (raw : Q) :
  Scorecard.normalized_score raw == clamp ((raw - 0) / (260 - 0)) 0 1 * 100.
Proof.
  unfold Scorecard.normalized_score.
  rewrite <- clip_clamp by lra.
  set (x := (raw - 0) / (260 - 0)).
  assert (Hx : raw == x * 260) by (unfold x; field).
  destruct (clip_cases raw 0 260) as [[H1 E] | [(H1 & H2 & E) | [H1 E]]];
    [lra | | |]; rewrite E;
    (destruct (clip_cases x 0 1)
       as [[H1' E'] | [(H1' & H2' & E') | [H1' E']]];
     [lra | | |]); rewrite E'; try (exfalso; lra).
  - reflexivity.
  - rewrite Hx. field.
  - reflexivity.
Qed.

(** C3. With bounds [min_score < max_score] the minmax branch yields,
    for every raw score, the finite score
    [clamp((raw - min) / (max - min), 0, 1) * 100]; it lies in
    [[0, 100]], is 0 when the raw score is [min_score] and is 100 as
    soon as the raw score reaches [max_score]. *)
Theorem minmax_normalization (raw min_score max_score : Q) :
  min_score < max_score ->
  exists v : Q,
    Pipeline.minmax raw min_score max_score = Fin v /\
    v == clamp ((raw - min_score) / (max_score - min_score)) 0 1 * 100 /\
    0 <= v /\ v <= 100 /\
    (raw == min_score -> v == 0) /\
    (max_score <= raw -> v == 100).
Proof.
  intros Hlt.
  set (x := (raw - min_score) / (max_score - min_score)).
  exists (clip x 0 1 * 100).
  split; [apply minmax_valid_bounds, Hlt |].
  split; [rewrite clip_clamp by lra; reflexivity |].
  assert (Hx : raw - min_score == x * (max_score - min_score))
    by (unfold x; field; lra).
  destruct (clip_cases x 0 1) as [[H1 E] | [(H1 & H2 & E) | [H1 E]]];
    [lra | | |]; rewrite E.
  - split; [lra |]. split; [lra |]. split; [reflexivity |].
    intros Hge. exfalso.
    assert (0 < - x * (max_score - min_score))
      by (apply Qmult_lt_0_compat; lra).
    lra.
  - split; [lra |]. split; [lra |]. split.
    + intros Heq.
      assert (Hz : x * (max_score - min_score) == 0) by lra.
      apply Qmult_integral in Hz. destruct Hz as [Hz | Hz]; [| exfalso]; lra.
    + intros Hge.
      assert (0 <= (1 - x) * (max_score - min_score))
        by (apply Qmult_le_0_compat; lra).
      assert (x == 1) by
        (apply Qle_antisym; [exact H2 |];
         apply Qnot_lt_le; intros Hx1;
         assert (0 < (1 - x) * (max_score - min_score))
           by (apply Qmult_lt_0_compat; lra); lra).
      lra.
  - split; [lra |]. split; [lra |]. split; [| reflexivity].
    intros Heq. exfalso.
    assert (0 < x * (max_score - min_score))
      by (apply Qmult_lt_0_compat; lra).
    lra.
Qed.

Lemma minmax_normalization_witness :
  0 < 20 /\
  exists v : Q,
    Pipeline.minmax 5.5 0 20 = Fin v /\
    v == clamp ((5.5 - 0) / (20 - 0)) 0 1 * 100 /\
    0 <= v /\ v <= 100 /\
    (5.5 == 0 -> v == 0) /\
    (20 <= 5.5 -> v == 100).
Proof.
  split; [reflexivity | apply (minmax_normalization 5.5 0 20); reflexivity].
Defined.

Example minmax_at_min : Pipeline.minmax 0 0 20 = Fin (0 / 20 * 100).
Proof. reflexivity. Qed.

Example minmax_above_max : exists v, Pipeline.minmax 26 0 20 = Fin v /\ v == 100.
Proof. eexists. split; [reflexivity | reflexivity]. Qed.

(** ** Raw scores *)

Lemma sum_from (xs : list Q) (a : Q) :
  fold_left Qplus xs a == a + fold_left Qplus xs 0.
Proof.
  revert a. induction xs as [| x xs IH]; intros a; simpl.
  - lra.
  - rewrite (IH (a + x)), (IH (0 + x)). lra.
Qed.

Lemma sum_cons (x : Q) (xs : list Q) : sum (x :: xs) == x + sum xs.
Proof. unfold sum. simpl. rewrite sum_from. lra. Qed.

(** The pipeline's raw score is the weighted sum over the catalog, a
    missing column counting as 0. *)
Lemma pipeline_raw_score_weighted_sum (df : gmap string Q)
    (weights : list (string * Q)) :
  Pipeline.raw_score df weights
  == weighted_sum weights (fun ki => get df ki 0).
Proof.
  unfold Pipeline.raw_score.
  induction weights as [| [ki weight] rest IH].
  - reflexivity.
  - rewrite fmap_cons, sum_cons, IH. simpl. ring.
Qed.

(** The scorecard's accumulation loop, from any starting value. *)
Lemma scorecard_loop (df : gmap string Q) (weights : list (string * Q)) :
  Forall (fun entry => is_Some (df !! entry.1)) weights ->
  forall a : Q, exists r : Q,
    fold_left
      (fun (acc : result Q) '(ki, weight) =>
         a ← acc; v ← getitem df ki; Ok (a + v * weight))
      weights (Ok a) = Ok r /\
    r == a + weighted_sum weights (fun ki => get df ki 0).
Proof.
  induction 1 as [| [ki weight] rest [v Hv] _ IH]; intros a.
  - exists a. split; [reflexivity | simpl; lra].
  - simpl in Hv. simpl.
    unfold getitem at 2. rewrite Hv. simpl.
    destruct (IH (a + v * weight)) as (r & Hr & Er).
    exists r. split; [exact Hr |].
    rewrite Er. unfold get at 2. rewrite Hv. ring.
Qed.

(** The scorecard's raw score on a frame that has the columns it reads. *)
Lemma scorecard_raw_score_sum
    (weights : list (string * Q)) (df : gmap string Q) (dynamic : Q) :
  Forall (fun entry => is_Some (df !! entry.1)) weights ->
  df !! "KI05_new_foreign_country_score" = Some dynamic ->
  exists raw : Q,
    Scorecard.raw_score weights df = Ok raw /\
    raw == weighted_sum weights (fun ki => get df ki 0) + dynamic.
Proof.
  intros Hcols Hdyn. unfold Scorecard.raw_score.
  destruct (scorecard_loop df weights Hcols 0) as (acc & Hacc & Eacc).
  rewrite Hacc. simpl. unfold getitem. rewrite Hdyn. simpl.
  exists (acc + dynamic). split; [reflexivity |].
  rewrite Eacc. lra.
Qed.

(** C1. In the scorecard, when the frame has every column that the
    weight dictionary names and the dynamic score column, the raw score
    is the sum of [weight[k] * indicator[k]] over the dictionary plus
    the dynamic country score, which enters once and without a weight;
    the boolean KI05 is one of the weighted entries.  This holds for
    all weights, the non-negative ones included. *)
Theorem scorecard_raw_score_is_weighted_sum_plus_dynamic
    (weights : list (string * Q)) (df : gmap string Q) (dynamic : Q) :
  Forall (fun entry => is_Some (df !! entry.1)) weights ->
  df !! "KI05_new_foreign_country_score" = Some dynamic ->
  exists raw : Q,
    Scorecard.raw_score weights df = Ok raw /\
    raw == weighted_sum weights (fun ki => get df ki 0) + dynamic.
Proof.
  intros Hcols Hdyn. unfold Scorecard.raw_score.
  (* the loop over the weight dictionary, started from 0 *)
  destruct (scorecard_loop df weights Hcols 0) as (acc & Hacc & Eacc).
  rewrite Hacc. simpl.
  (* the dynamic score, added after the loop *)
  unfold getitem. rewrite Hdyn. simpl.
  exists (acc + dynamic). split; [reflexivity |].
  rewrite Eacc. lra.
Qed.

Lemma scorecard_raw_score_is_weighted_sum_plus_dynamic_witness :
  let df : gmap string Q :=
    list_to_map
      [("KI01_amt_deviation", 1); ("KI02_night_txn", 1);
       ("KI03_new_payee_high_amt", 0); ("KI04_burst_txns", 0);
       ("KI05_new_foreign_country", 1); ("KI06_new_acct_high_txn", 0);
       ("KI07_large_internal_transfer_no_dualauth", 0);
       ("KI08_payee_risk_low_history", 0);
       ("KI05_new_foreign_country_score", 36)] in
  exists raw : Q,
    Scorecard.raw_score Scorecard.ki_weights df = Ok raw /\
    raw == weighted_sum Scorecard.ki_weights (fun ki => get df ki 0) + 36.
Proof.
  intros df.
  apply (scorecard_raw_score_is_weighted_sum_plus_dynamic
           Scorecard.ki_weights df 36).
  - repeat constructor; vm_compute; eexists; reflexivity.
  - vm_compute. reflexivity.
Defined.

(** Column lookups in a frame built by successive assignments. *)
Ltac lookup_columns :=
  repeat first
    [ rewrite lookup_insert_eq
    | rewrite lookup_insert_ne by (intros Hname; discriminate Hname) ].

(** The frame that feature engineering builds has all the columns the
    aggregation reads. *)
Lemma engineer_columns (r : Scorecard.Row) (df : gmap string Q) :
  Scorecard.engineer r = Ok df ->
  Forall (fun entry => is_Some (df !! entry.1)) Scorecard.ki_weights /\
  df !! "KI05_new_foreign_country_score"
  = Some (Scorecard.compute_ki05_score r).
Proof.
  unfold Scorecard.engineer. intros Hdf.
  repeat match type of Hdf with
         | mbind _ ?m = Ok _ =>
             let E := fresh "E" in
             destruct m eqn:E; [simpl in Hdf | discriminate]
         end.
  injection Hdf as <-.
  unfold Scorecard.KI05_new_foreign_country_score in *.
  split.
  - repeat apply Forall_cons_2; [.. | apply Forall_nil_2]; simpl.
    all: lookup_columns; eexists; reflexivity.
  - lookup_columns. congruence.
Qed.

(** So the script's raw score has the form of C1 on every row it
    accepts. *)
Lemma scorecard_script_raw_score (r : Scorecard.Row) (s : Scorecard.Scored) :
  Scorecard.score_row r = Ok s ->
  Scorecard.scored_raw s
  == weighted_sum Scorecard.ki_weights
       (fun ki => get (Scorecard.columns s) ki 0)
     + Scorecard.compute_ki05_score r.
Proof.
  unfold Scorecard.score_row. intros Hs.
  destruct (Scorecard.engineer r) as [df |] eqn:Hdf; [| discriminate].
  simpl in Hs.
  destruct (engineer_columns r df Hdf) as [Hcols Hdyn].
  destruct (scorecard_raw_score_sum Scorecard.ki_weights df _ Hcols Hdyn)
    as (raw & Hraw & Eraw).
  rewrite Hraw in Hs. simpl in Hs. injection Hs as <-. simpl. exact Eraw.
Qed.

(** ** Indicators missing from the frame *)

Lemma weighted_sum_without (ki : string) (weights : list (string * Q))
    (value : string -> Q) :
  value ki == 0 ->
  weighted_sum (without ki weights) value == weighted_sum weights value.
Proof.
  intros Hzero. unfold without.
  induction weights as [| [k w] rest IH]; [reflexivity |].
  rewrite filter_cons. simpl.
  destruct (decide (k <> ki)) as [Hne | Heq]; simpl.
  - rewrite IH. reflexivity.
  - apply dec_stable in Heq. subst k. rewrite IH, Hzero. ring.
Qed.

Lemma raw_score_without (df : gmap string Q) (weights : list (string * Q))
    (ki : string) :
  df !! ki = None ->
  Pipeline.raw_score df weights == Pipeline.raw_score df (without ki weights).
Proof.
  intros Habsent. rewrite !pipeline_raw_score_weighted_sum.
  symmetry. apply weighted_sum_without.
  unfold get. rewrite Habsent. reflexivity.
Qed.

(** C10. In [compute_fraud_scores] an indicator that the weight
    catalog names but the frame does not have is read as 0: its term
    [df.get(ki, 0) * weight] is 0, the raw score of a row is the one
    computed from the catalog without that indicator, and on every set
    of rows the aggregator behaves, as far as raw scores and errors
    go, as it does with that catalog; no lookup fails. *)
Theorem absent_indicator_contributes_zero
    (rows : list (gmap string Q)) (weights : list (string * Q))
    (ki : string) :
  Forall (fun df : gmap string Q => df !! ki = None) rows ->
  Forall (fun df : gmap string Q =>
            (forall weight : Q, get df ki 0 * weight == 0) /\
            Pipeline.raw_score df weights
            == Pipeline.raw_score df (without ki weights)) rows /\
  forall (method : string) (min_score max_score : Q),
    same_raw_scores
      (Pipeline.compute_fraud_scores rows weights method min_score max_score)
      (Pipeline.compute_fraud_scores rows (without ki weights) method
         min_score max_score).
Proof.
  intros Habsent.
  assert (Hrows : Forall (fun df : gmap string Q =>
                    Pipeline.raw_score df weights
                    == Pipeline.raw_score df (without ki weights)) rows).
  { eapply Forall_impl; [exact Habsent |].
    intros df Hdf. apply raw_score_without, Hdf. }
  split.
  - rewrite Forall_forall in *. intros df Hin. split.
    + intros weight. unfold get. rewrite (Habsent df Hin). ring.
    + apply Hrows, Hin.
  - intros method min_score max_score. unfold Pipeline.compute_fraud_scores.
    destruct (String.eqb method "minmax");
      [| destruct (String.eqb method "logistic")]; simpl;
      [| | reflexivity].
    + rewrite <- !list_fmap_compose.
      clear Habsent. induction Hrows as [| df rest Hdf _ IH]; simpl;
        constructor; [exact Hdf | exact IH].
    + rewrite <- !list_fmap_compose.
      clear Habsent. induction Hrows as [| df rest Hdf _ IH]; simpl;
        constructor; [exact Hdf | exact IH].
Qed.

Lemma absent_indicator_contributes_zero_witness :
  let rows : list (gmap string Q) :=
    [list_to_map [("KI01", 1); ("KI03", 1)]; list_to_map [("KI01", 0); ("KI03", 1)]] in
  Forall (fun df : gmap string Q =>
            (forall weight : Q, get df "KI02" 0 * weight == 0) /\
            Pipeline.raw_score df Pipeline.ki_weights
            == Pipeline.raw_score df (without "KI02" Pipeline.ki_weights)) rows /\
  forall (method : string) (min_score max_score : Q),
    same_raw_scores
      (Pipeline.compute_fraud_scores rows Pipeline.ki_weights method
         min_score max_score)
      (Pipeline.compute_fraud_scores rows (without "KI02" Pipeline.ki_weights)
         method min_score max_score).
Proof.
  intros rows.
  apply (absent_indicator_contributes_zero rows Pipeline.ki_weights "KI02").
  repeat constructor.
Defined.

Example raw_score_two_present :
  Pipeline.raw_score (list_to_map [("KI01", 1); ("KI03", 1)]) Pipeline.ki_weights
  == 4.
Proof. vm_compute. reflexivity. Qed.

(** ** Logistic normalization *)

Section Logistic.
Local Open Scope R_scope.

(** The decimal literals of the branch as fractions. *)
Lemma minus_tenth : Q2R (-0.1) = - (1 / 10).
Proof. unfold Q2R. simpl. lra. Qed.




Lemma logistic_increasing (a b : R) :
  a < b -> Pipeline.logistic a < Pipeline.logistic b.
Proof.
  intros Hab. unfold Pipeline.logistic.
  assert (He : exp (-0.1 * (b - 5)) < exp (-0.1 * (a - 5)))
    by (apply exp_increasing; rewrite minus_tenth; lra).
  pose proof (exp_pos (-0.1 * (b - 5))) as Hb.
  set (ea := exp (-0.1 * (a - 5))) in *.
  set (eb := exp (-0.1 * (b - 5))) in *.
  assert (Hinv : / (1 + ea) < / (1 + eb)).
  { apply Rinv_lt_contravar; [| lra].
    apply Rmult_lt_0_compat; lra. }
  lra.
Qed.


Lemma logistic_monotone (a b : R) :
  a <= b -> Pipeline.logistic a <= Pipeline.logistic b.
Proof.
  intros [Hlt | ->]; [| lra].
  apply Rlt_le, logistic_increasing, Hlt.
Qed.



End Logistic.

Section LogisticBinary64.
Import PrimFloat.
Local Open Scope float_scope.

Lemma binary64_logistic_halves (np_exp : float -> float) (raw : float) :
  Binary64.logistic np_exp raw
  = Binary64.logistic_of_exp (np_exp (Binary64.logistic_exponent raw)).
Proof. reflexivity. Qed.


(** At the midpoint no rounding occurs: the raw score 5 reaches
    [np.exp] as -0, whose exponential is 1, and scores 50. *)
Example binary64_logistic_at_midpoint :
  Binary64.logistic_exponent 5 = -0 /\
  Binary64.logistic_of_exp 1 = 50.
Proof. split; vm_compute; reflexivity. Qed.

(** So with any [np.exp] that returns these two values the scores of
    400 and 500 are equal. *)
Lemma binary64_logistic_ties (np_exp : float -> float) :
  np_exp (-39.5) = Binary64.exp_minus_39_5 ->
  np_exp (-49.5) = Binary64.exp_minus_49_5 ->
  Binary64.logistic np_exp 400 = 100 /\
  Binary64.logistic np_exp 500 = 100.
Proof.
  intros H400 H500. rewrite !binary64_logistic_halves.
  change (Binary64.logistic_exponent 400) with (-39.5).
  change (Binary64.logistic_exponent 500) with (-49.5).
  rewrite H400, H500. split; vm_compute; reflexivity.
Qed.

End LogisticBinary64.

(** ** Errors of the aggregator *)

Lemma compute_fraud_scores_minmax (df : list (gmap string Q))
    (weights : list (string * Q)) (min_score max_score : Q) :
  Pipeline.compute_fraud_scores df weights "minmax" min_score max_score
  = Ok (Pipeline.MinmaxFrame
          (Pipeline.score_minmax weights min_score max_score <$> df)).
Proof. reflexivity. Qed.

Lemma compute_fraud_scores_unsupported (df : list (gmap string Q))
    (weights : list (string * Q)) (method : string) (min_score max_score : Q) :
  method <> "minmax" -> method <> "logistic" ->
  Pipeline.compute_fraud_scores df weights method min_score max_score
  = Raise (ValueError "Unsupported normalization method").
Proof.
  intros Hm Hl. unfold Pipeline.compute_fraud_scores.
  apply String.eqb_neq in Hm, Hl. rewrite Hm, Hl. reflexivity.
Qed.

(** Refutation of C8 as stated: under ["minmax"] with
    [max_score <= min_score] nothing is raised.  With equal bounds the
    division by zero gives [-inf], clipped to 0; with [max_score]
    below [min_score] the score comes out of a negative denominator
    (here 90, a High Risk row from a raw score of 2). *)
Lemma invalid_bounds_are_not_rejected :
  let df : list (gmap string Q) := [list_to_map [("KI01", 1)]] in
  20 <= 20 /\
  is_ok (Pipeline.compute_fraud_scores df Pipeline.ki_weights "minmax" 20 20)
  = true /\
  Pipeline.minmax 2 20 20 = Fin (0 * 100) /\
  0 <= 20 /\
  is_ok (Pipeline.compute_fraud_scores df Pipeline.ki_weights "minmax" 20 0)
  = true /\
  (exists v, Pipeline.minmax 2 20 0 = Fin v /\ v == 90).
Proof.
  intros df. repeat split; try reflexivity; try (vm_compute; congruence).
  eexists. split; [reflexivity | vm_compute; reflexivity].
Qed.

(** C8, amended.  [compute_fraud_scores] raises exactly when the
    normalization method is neither ["minmax"] nor ["logistic"], and
    the error is then the [ValueError] of its last branch; the bounds
    play no part: for a supported method it returns a frame with one
    row per input row whatever [min_score] and [max_score] are. *)
Theorem compute_fraud_scores_raises_iff_unsupported
    (df : list (gmap string Q)) (weights : list (string * Q))
    (method : string) (min_score max_score : Q) :
  (Pipeline.compute_fraud_scores df weights method min_score max_score
   = Raise (ValueError "Unsupported normalization method")
   <-> method <> "minmax" /\ method <> "logistic") /\
  (method = "minmax" \/ method = "logistic" ->
   exists frame : Pipeline.Frame,
     Pipeline.compute_fraud_scores df weights method min_score max_score
     = Ok frame /\
     length (raw_column frame) = length df).
Proof.
  split; [split |].
  - intros Hraise. unfold Pipeline.compute_fraud_scores in Hraise.
    destruct (String.eqb_spec method "minmax") as [-> | Hm]; [discriminate |].
    destruct (String.eqb_spec method "logistic") as [-> | Hl];
      [discriminate |].
    split; assumption.
  - intros [Hm Hl]. now apply compute_fraud_scores_unsupported.
  - intros [-> | ->]; eexists; (split; [reflexivity |]); simpl;
      rewrite !length_fmap; reflexivity.
Qed.

Lemma compute_fraud_scores_raises_iff_unsupported_witness :
  exists frame : Pipeline.Frame,
    Pipeline.compute_fraud_scores [∅] Pipeline.ki_weights "minmax" 20 0
    = Ok frame /\
    length (raw_column frame) = 1%nat.
Proof.
  apply (compute_fraud_scores_raises_iff_unsupported
           [∅] Pipeline.ki_weights "minmax" 20 0).
  left. reflexivity.
Defined.

(** The script always asks for ["minmax"], so it never raises. *)
Lemma main_is_ok (account_profiles : gmap Z Pipeline.Profile)
    (df : list Pipeline.Txn) :
  is_ok (Pipeline.main account_profiles df) = true.
Proof. reflexivity. Qed.

(** ** Missing upstream columns *)

(** Refutation of C9 as stated: the scorecard indexes its columns
    directly, so a sheet without [txn_count_24h] makes KI04, and with
    it the script, raise [KeyError]. *)
Lemma scorecard_missing_column_raises :
  let r := {| Scorecard.REQUESTED_AMOUNT_US_INTL := Some 500;
              Scorecard.account_mean_amt := Some 100;
              Scorecard.account_std_amt := Some 10;
              Scorecard.hour := Some 14;
              Scorecard.is_new_party := Some false;
              Scorecard.txn_count_24h := None;
              Scorecard.prev_foreign_countries := Some "USA";
              Scorecard.curr_foreign_countries := Some "USA";
              Scorecard.acct_creation_days_ago := Some 400;
              Scorecard.approval_flag := Some true;
              Scorecard.payee_usage_count := Some 12 |} in
  Scorecard.KI04_burst_txns r = Raise (KeyError "txn_count_24h") /\
  Scorecard.score_row r = Raise (KeyError "txn_count_24h").
Proof. split; reflexivity. Qed.

Lemma kis_lookup_total (txn : Pipeline.Txn) (profile : Pipeline.Profile)
    (context : Pipeline.Context) (ki : string) :
  ki ∈ indicator_names ->
  exists b : bool, Pipeline.kis txn profile context !! ki = Some (int b).
Proof.
  unfold indicator_names, Pipeline.kis. intros Hin.
  repeat (apply elem_of_cons in Hin; destruct Hin as [-> | Hin];
          [lookup_columns; eexists; reflexivity |]).
  apply elem_of_nil in Hin. contradiction.
Qed.

Lemma kis_absent_field (txn : Pipeline.Txn) (profile : Pipeline.Profile)
    (context : Pipeline.Context) (f : OptionalField) (ki : string) :
  absent f txn -> ki ∈ readers f ->
  Pipeline.kis txn profile context !! ki = Some 0.
Proof.
  intros Habsent Hin. unfold Pipeline.kis.
  destruct f; simpl in Habsent, Hin;
    repeat (apply elem_of_cons in Hin; destruct Hin as [-> | Hin];
            [lookup_columns; rewrite Habsent; simpl;
             rewrite ?andb_false_r; reflexivity |]);
    apply elem_of_nil in Hin; contradiction.
Qed.

(** C9, amended to the pipeline.  In the transaction loop a column
    read with [txn.get] may be missing without any error: all fifteen
    indicators are still evaluated, each to 0 or 1, and every
    indicator whose rule reads the missing column evaluates to 0.
    (The scorecard script is outside this statement: it raises
    [KeyError] on a missing column.) *)
Theorem pipeline_missing_field_is_neutral (txn : Pipeline.Txn)
    (profile : Pipeline.Profile) (context : Pipeline.Context) :
  (forall ki : string, ki ∈ indicator_names ->
     exists b : bool, Pipeline.kis txn profile context !! ki = Some (int b)) /\
  (forall (f : OptionalField) (ki : string),
     absent f txn -> ki ∈ readers f ->
     Pipeline.kis txn profile context !! ki = Some 0).
Proof.
  split.
  - intros ki. apply kis_lookup_total.
  - intros f ki. apply kis_absent_field.
Qed.

Lemma pipeline_missing_field_is_neutral_witness :
  let txn := bare_txn 7 3 250000 1735700000 in
  absent F_approval_flag txn /\
  Pipeline.kis txn
    {| Pipeline.mean_amt := Some 100; Pipeline.std_amt := Some 10;
       Pipeline.typical_currency := "USD" |}
    (Pipeline.fresh_context 1735700000) !! "KI19" = Some 0.
Proof.
  intros txn. split; [reflexivity |].
  apply (proj2 (pipeline_missing_field_is_neutral txn _ _) F_approval_flag).
  - reflexivity.
  - apply list_elem_of_here.
Defined.

(** ** The transaction loop *)

Section Loop.
Variable account_profiles : gmap Z Pipeline.Profile.

Local Abbreviation step := (Pipeline.step account_profiles).

Lemma loop_snoc (earlier : list Pipeline.Txn) (t : Pipeline.Txn) :
  Pipeline.loop account_profiles (earlier ++ [t])
  = step (Pipeline.loop account_profiles earlier) t.
Proof. unfold Pipeline.loop. apply fold_left_app. Qed.

(** The loop appends one row per transaction to the rows it has. *)
Lemma results_fold (txns : list Pipeline.Txn) (st : Pipeline.State) :
  exists rows : list Pipeline.Result,
    Pipeline.results (fold_left step txns st)
    = (Pipeline.results st ++ rows)%list /\
    result_id <$> rows = txn_id <$> txns.
Proof.
  revert st. induction txns as [| t rest IH]; intros st; simpl.
  - exists []. split; [symmetry; apply app_nil_r | reflexivity].
  - destruct (IH (step st t)) as (rows & Hrows & Hids).
    eexists (_ :: rows). split.
    + rewrite Hrows. unfold Pipeline.step at 1. simpl.
      rewrite <- app_assoc. reflexivity.
    + rewrite !fmap_cons. f_equal. exact Hids.
Qed.

Lemma results_ids (txns : list Pipeline.Txn) :
  result_id <$> Pipeline.results (Pipeline.loop account_profiles txns)
  = txn_id <$> txns.
Proof.
  destruct (results_fold txns Pipeline.initial) as (rows & Hrows & Hids).
  unfold Pipeline.loop. rewrite Hrows. exact Hids.
Qed.

Lemma results_length (txns : list Pipeline.Txn) :
  length (Pipeline.results (Pipeline.loop account_profiles txns))
  = length txns.
Proof.
  rewrite <- (length_fmap result_id), results_ids. apply length_fmap.
Qed.

(** The row of a transaction is computed from the contexts left by the
    transactions before it, and later transactions do not touch it. *)
Lemma result_at (earlier later : list Pipeline.Txn) (t : Pipeline.Txn) :
  Pipeline.results (Pipeline.loop account_profiles (earlier ++ t :: later))
    !! length earlier
  = Some (result_of account_profiles
            (Pipeline.account_context
               (Pipeline.loop account_profiles earlier)) t).
Proof.
  pose proof (results_length earlier) as Hlen.
  unfold Pipeline.loop in *. rewrite fold_left_app. simpl.
  destruct (results_fold later (step (fold_left step earlier Pipeline.initial) t))
    as (rows & Hrows & _).
  rewrite Hrows. unfold Pipeline.step at 1. simpl.
  rewrite <- app_assoc.
  rewrite lookup_app_r by (rewrite Hlen; lia).
  rewrite Hlen, Nat.sub_diag. reflexivity.
Qed.

(** The invariant of the context dictionary: after the loop has
    visited [earlier], the parties recorded for an account are those of
    its transactions in [earlier], no more and no fewer. *)
Lemma context_reflects_earlier (earlier : list Pipeline.Txn) (acct : Z) :
  parties_of
    (Pipeline.account_context (Pipeline.loop account_profiles earlier)) acct
  = seen_before acct earlier.
Proof.
  induction earlier as [| t earlier IH] using rev_ind.
  - reflexivity.
  - rewrite loop_snoc. unfold Pipeline.step at 1. simpl.
    unfold seen_before. rewrite filter_app, fmap_app, list_to_set_app_L.
    fold (seen_before acct earlier). rewrite <- IH.
    unfold parties_of.
    destruct (decide (Pipeline.ACCOUNT_KEY t = acct)) as [Heq | Hne].
    + subst acct. rewrite lookup_insert_eq. simpl.
      rewrite filter_cons_True by reflexivity. simpl.
      unfold Pipeline.context_of.
      destruct (Pipeline.account_context
                  (Pipeline.loop account_profiles earlier)
                  !! Pipeline.ACCOUNT_KEY t); simpl;
        rewrite (right_id_L ∅ (∪)); reflexivity.
    + rewrite lookup_insert_ne by exact Hne.
      rewrite filter_cons_False by exact Hne. simpl.
      rewrite (right_id_L ∅ (∪)). reflexivity.
Qed.

Lemma context_of_parties (contexts : gmap Z Pipeline.Context)
    (t : Pipeline.Txn) :
  Pipeline.parties_seen (Pipeline.context_of contexts t)
  = parties_of contexts (Pipeline.ACCOUNT_KEY t).
Proof.
  unfold Pipeline.context_of, parties_of.
  destruct (contexts !! Pipeline.ACCOUNT_KEY t); reflexivity.
Qed.

(** KI03 of a transaction, from the transactions visited before it. *)
Lemma ki03_at (earlier later : list Pipeline.Txn) (t : Pipeline.Txn) :
  ki_at (Pipeline.results
           (Pipeline.loop account_profiles (earlier ++ t :: later)))
        (length earlier) "KI03"
  = Some (int (bool_decide
                 (Pipeline.PARTY_KEY t
                  ∉ seen_before (Pipeline.ACCOUNT_KEY t) earlier)
               && Qgtb (Pipeline.REQUESTED_AMOUNT_US_INTL t) 10000)).
Proof.
  unfold ki_at. rewrite result_at. simpl.
  unfold Pipeline.kis. lookup_columns.
  rewrite context_of_parties, context_reflects_earlier. reflexivity.
Qed.

End Loop.

(** ** The new-payee indicator *)

Lemma seen_before_elem (acct party : Z) (earlier : list Pipeline.Txn) :
  party ∈ seen_before acct earlier <->
  exists u : Pipeline.Txn,
    u ∈ earlier /\ Pipeline.ACCOUNT_KEY u = acct /\
    Pipeline.PARTY_KEY u = party.
Proof.
  unfold seen_before. rewrite elem_of_list_to_set, list_elem_of_fmap.
  split.
  - intros (u & Hparty & Hin). apply list_elem_of_filter in Hin.
    destruct Hin as [Hacct Hin]. exists u. auto.
  - intros (u & Hin & Hacct & Hparty). exists u. split; [auto |].
    apply list_elem_of_filter. auto.
Qed.

(** C5. In the transaction loop, a transaction above 10000 whose party
    no earlier transaction of the same account had gets KI03 = 1, and
    every later transaction of that account with that party gets
    KI03 = 0, whatever its amount (the same amount included): the
    party enters [parties_seen] after the indicators of its first
    transaction are evaluated and before the next transaction is. *)
Theorem new_payee_flagged_on_first_sight_only
    (account_profiles : gmap Z Pipeline.Profile)
    (earlier later : list Pipeline.Txn) (t : Pipeline.Txn) :
  10000 < Pipeline.REQUESTED_AMOUNT_US_INTL t ->
  (forall u : Pipeline.Txn,
     u ∈ earlier -> Pipeline.ACCOUNT_KEY u = Pipeline.ACCOUNT_KEY t ->
     Pipeline.PARTY_KEY u <> Pipeline.PARTY_KEY t) ->
  let rows :=
    Pipeline.results (Pipeline.loop account_profiles (earlier ++ t :: later)) in
  ki_at rows (length earlier) "KI03" = Some 1 /\
  forall (between after : list Pipeline.Txn) (u : Pipeline.Txn),
    later = (between ++ u :: after)%list ->
    Pipeline.ACCOUNT_KEY u = Pipeline.ACCOUNT_KEY t ->
    Pipeline.PARTY_KEY u = Pipeline.PARTY_KEY t ->
    ki_at rows (length earlier + 1 + length between) "KI03" = Some 0.
Proof.
  intros Hamount Hnew rows. subst rows. split.
  - rewrite ki03_at.
    rewrite bool_decide_true.
    + apply Qgtb_true in Hamount. rewrite Hamount. reflexivity.
    + rewrite seen_before_elem. intros (u & Hin & Hacct & Hparty).
      exact (Hnew u Hin Hacct Hparty).
  - intros between after u -> Hacct Hparty.
    replace (earlier ++ t :: between ++ u :: after)%list
      with ((earlier ++ t :: between) ++ u :: after)%list
      by (rewrite <- app_assoc; reflexivity).
    replace (length earlier + 1 + length between)%nat
      with (length (earlier ++ t :: between))
      by (rewrite length_app; simpl; lia).
    rewrite ki03_at.
    rewrite bool_decide_false; [reflexivity |].
    intros Hnot. apply Hnot. rewrite seen_before_elem.
    exists t. split; [| auto].
    apply elem_of_app. right. apply list_elem_of_here.
Qed.

Lemma new_payee_flagged_on_first_sight_only_witness :
  let first := bare_txn 7 3 25000 1735700000 in
  let other := bare_txn 7 4 80 1735703600 in
  let again := bare_txn 7 3 25000 1735707200 in
  let rows := Pipeline.results (Pipeline.loop ∅ [first; other; again]) in
  ki_at rows 0 "KI03" = Some 1 /\ ki_at rows 2 "KI03" = Some 0.
Proof.
  intros first other again rows.
  destruct (new_payee_flagged_on_first_sight_only ∅ [] [other; again] first)
    as [Hfirst Hlater].
  - reflexivity.
  - intros u Hin. apply elem_of_nil in Hin. contradiction.
  - split; [exact Hfirst |].
    apply (Hlater [other] [] again); reflexivity.
Defined.

(** ** The sort before the loop *)

Lemma key_le_spec (a b : Pipeline.Txn) :
  key_le a b <->
  (Pipeline.ACCOUNT_KEY a < Pipeline.ACCOUNT_KEY b
   \/ Pipeline.ACCOUNT_KEY a = Pipeline.ACCOUNT_KEY b
      /\ Pipeline.TRANSACTION_LOCAL_DATE_TIME a
         <= Pipeline.TRANSACTION_LOCAL_DATE_TIME b)%Z.
Proof.
  unfold key_le, Pipeline.key_leb.
  rewrite orb_true_iff, andb_true_iff, Z.ltb_lt, Z.eqb_eq, Z.leb_le.
  reflexivity.
Qed.

Lemma key_le_total (a b : Pipeline.Txn) : key_le a b \/ key_le b a.
Proof. rewrite !key_le_spec. lia. Qed.

Lemma key_le_trans (a b c : Pipeline.Txn) :
  key_le a b -> key_le b c -> key_le a c.
Proof. rewrite !key_le_spec. lia. Qed.

Lemma insert_sorted_perm (t : Pipeline.Txn) (sorted : list Pipeline.Txn) :
  Pipeline.insert_sorted t sorted ≡ₚ t :: sorted.
Proof.
  induction sorted as [| u rest IH]; simpl; [reflexivity |].
  destruct (Pipeline.key_leb t u); [reflexivity |].
  rewrite IH. apply perm_swap.
Qed.

Lemma sort_values_perm (df : list Pipeline.Txn) :
  Pipeline.sort_values df ≡ₚ df.
Proof.
  unfold Pipeline.sort_values.
  induction df as [| t rest IH]; simpl; [reflexivity |].
  rewrite insert_sorted_perm, IH. reflexivity.
Qed.

Lemma insert_sorted_sorted (t : Pipeline.Txn) (sorted : list Pipeline.Txn) :
  StronglySorted key_le sorted ->
  StronglySorted key_le (Pipeline.insert_sorted t sorted).
Proof.
  induction 1 as [| u rest Hrest IH Hu]; simpl.
  - repeat constructor.
  - destruct (Pipeline.key_leb t u) eqn:Hle.
    + constructor; [constructor; assumption |].
      constructor; [exact Hle |].
      eapply Forall_impl; [exact Hu |].
      intros v Huv. exact (key_le_trans t u v Hle Huv).
    + constructor; [exact IH |].
      rewrite (insert_sorted_perm t rest).
      constructor; [| exact Hu].
      destruct (key_le_total t u) as [Htu | Hut]; [| exact Hut].
      unfold key_le in Htu. congruence.
Qed.

Lemma sort_values_sorted (df : list Pipeline.Txn) :
  StronglySorted key_le (Pipeline.sort_values df).
Proof.
  unfold Pipeline.sort_values.
  induction df as [| t rest IH]; simpl; [constructor |].
  apply insert_sorted_sorted, IH.
Qed.

(** In a sorted frame the transactions of one account come in
    non-decreasing time. *)
Lemma sorted_account_times (visited : list Pipeline.Txn) :
  StronglySorted key_le visited ->
  forall (i j : nat) (u v : Pipeline.Txn),
    visited !! i = Some u -> visited !! j = Some v -> (i < j)%nat ->
    Pipeline.ACCOUNT_KEY u = Pipeline.ACCOUNT_KEY v ->
    (Pipeline.TRANSACTION_LOCAL_DATE_TIME u
     <= Pipeline.TRANSACTION_LOCAL_DATE_TIME v)%Z.
Proof.
  induction 1 as [| w rest Hrest IH Hw]; intros i j u v Hi Hj Hlt Hacct.
  - rewrite lookup_nil in Hi. discriminate.
  - destruct j as [| j]; [lia |]. simpl in Hj.
    destruct i as [| i]; simpl in Hi.
    + injection Hi as ->.
      rewrite Forall_forall in Hw.
      assert (Hle : key_le u v).
      { apply Hw. eapply list_elem_of_lookup_2, Hj. }
      apply key_le_spec in Hle. lia.
    + apply (IH i j u v Hi Hj); [lia | exact Hacct].
Qed.

(** Refutation of C7 as stated: a sheet that lists a transaction of
    account 7 before an earlier one of the same account is not
    rejected; the script scores both rows, the earlier one first. *)
Lemma out_of_order_transaction_is_scored :
  let late := bare_txn 7 3 80 1735707200 in
  let early := bare_txn 7 4 25000 1735700000 in
  let df := [late; early] in
  (Pipeline.TRANSACTION_LOCAL_DATE_TIME early
   < Pipeline.TRANSACTION_LOCAL_DATE_TIME late)%Z /\
  is_ok (Pipeline.main ∅ df) = true /\
  result_id <$> Pipeline.results (Pipeline.loop ∅ (Pipeline.sort_values df))
  = [txn_id early; txn_id late] /\
  ki_at (Pipeline.results (Pipeline.loop ∅ (Pipeline.sort_values df))) 0 "KI03"
  = Some 1.
Proof.
  intros late early df.
  split; [reflexivity |]. split; [reflexivity |].
  split; vm_compute; reflexivity.
Qed.

(** C7, amended.  The script rejects nothing.  It sorts the sheet by
    account and time before the loop, so whatever the order of the
    input the loop visits a rearrangement of it in which the
    transactions of each account come in non-decreasing time, and it
    emits exactly one scored row for every transaction of the input,
    in that order. *)
Theorem pipeline_sorts_then_scores_every_transaction
    (account_profiles : gmap Z Pipeline.Profile) (df : list Pipeline.Txn) :
  let visited := Pipeline.sort_values df in
  visited ≡ₚ df /\
  (forall (i j : nat) (u v : Pipeline.Txn),
     visited !! i = Some u -> visited !! j = Some v -> (i < j)%nat ->
     Pipeline.ACCOUNT_KEY u = Pipeline.ACCOUNT_KEY v ->
     (Pipeline.TRANSACTION_LOCAL_DATE_TIME u
      <= Pipeline.TRANSACTION_LOCAL_DATE_TIME v)%Z) /\
  result_id <$> Pipeline.results (Pipeline.loop account_profiles visited)
  = txn_id <$> visited /\
  exists rows : list (Pipeline.Scored fval),
    Pipeline.main account_profiles df = Ok (Pipeline.MinmaxFrame rows) /\
    length rows = length df.
Proof.
  intros visited. subst visited.
  split; [apply sort_values_perm |].
  split; [apply sorted_account_times, sort_values_sorted |].
  split; [apply results_ids |].
  unfold Pipeline.main. rewrite compute_fraud_scores_minmax.
  eexists. split; [reflexivity |].
  rewrite !length_fmap, results_length.
  apply Permutation_length, sort_values_perm.
Qed.

Lemma pipeline_sorts_then_scores_every_transaction_witness :
  let late := bare_txn 7 3 80 1735707200 in
  let early := bare_txn 7 4 25000 1735700000 in
  (Pipeline.TRANSACTION_LOCAL_DATE_TIME early
   <= Pipeline.TRANSACTION_LOCAL_DATE_TIME late)%Z.
Proof.
  intros late early.
  destruct (pipeline_sorts_then_scores_every_transaction ∅ [late; early])
    as (_ & Horder & _).
  apply (Horder 0%nat 1%nat early late); reflexivity || lia.
Defined.

(** ** The dynamic country score *)

Lemma sum_total (xs : list Q) : sum xs == total xs.
Proof.
  induction xs as [| x rest IH]; [reflexivity |].
  rewrite sum_cons, IH. reflexivity.
Qed.

Lemma total_perm (xs ys : list Q) : xs ≡ₚ ys -> total xs == total ys.
Proof.
  induction 1 as [| x xs ys _ IH | x y xs | xs ys zs _ IH1 _ IH2]; simpl.
  - reflexivity.
  - rewrite IH. reflexivity.
  - ring.
  - rewrite IH1. exact IH2.
Qed.

Lemma scaling_cases (n : nat) :
  ((n <= 2)%nat -> Scorecard.scaling n = 1.2) /\
  ((2 < n)%nat -> (n <= 5)%nat -> Scorecard.scaling n = 1.0) /\
  ((5 < n)%nat -> Scorecard.scaling n = 0.5).
Proof.
  unfold Scorecard.scaling.
  destruct (Nat.leb_spec n 2); destruct (Nat.leb_spec n 5);
    repeat split; intros; first [reflexivity | lia].
Qed.

Lemma risk_of_unknown (risk : gmap string Q) (c : string) :
  risk !! strip c = None -> Scorecard.risk_of risk c = 0.
Proof.
  intros Hnone. unfold Scorecard.risk_of, get. rewrite Hnone. reflexivity.
Qed.

Lemma ki05_score_over_enumeration (risk : gmap string Q)
    (prev curr : option string) (new_countries : list string) :
  NoDup new_countries ->
  (forall c : string,
     c ∈ new_countries <-> c ∈ countries curr /\ c ∉ countries prev) ->
  Scorecard.compute_ki05_score_with risk prev curr
  == total (Scorecard.risk_of risk <$> new_countries)
     * Scorecard.scaling (size (countries prev)).
Proof.
  intros Hnodup Hnew. unfold Scorecard.compute_ki05_score_with.
  fold (countries prev) (countries curr).
  rewrite sum_total.
  rewrite (total_perm _ (Scorecard.risk_of risk <$> new_countries));
    [reflexivity |].
  apply fmap_Permutation, NoDup_Permutation;
    [apply NoDup_elements | exact Hnodup |].
  intros c. rewrite elem_of_elements, elem_of_difference, Hnew. reflexivity.
Qed.

(** X27. Over the entries of the two columns, compared as they are
    written, the dynamic country score is the sum of the risk weights
    of the entries of the current column that are not entries of the
    prior column, times a factor chosen by the number of prior entries
    (1.2 up to two, 1.0 up to five, 0.5 beyond); an entry whose
    stripped code the risk table does not have weighs 0.  In
    particular two prior entries and one new entry of weight 40 give
    40 x 1.2 = 48. *)
Theorem ki05_score_is_scaled_sum_over_new_countries
    (risk : gmap string Q) (prev curr : option string) :
  (forall new_countries : list string,
     NoDup new_countries ->
     (forall c : string,
        c ∈ new_countries <-> c ∈ countries curr /\ c ∉ countries prev) ->
     Scorecard.compute_ki05_score_with risk prev curr
     == total (Scorecard.risk_of risk <$> new_countries)
        * Scorecard.scaling (size (countries prev))) /\
  (forall n : nat,
     ((n <= 2)%nat -> Scorecard.scaling n = 1.2) /\
     ((2 < n)%nat -> (n <= 5)%nat -> Scorecard.scaling n = 1.0) /\
     ((5 < n)%nat -> Scorecard.scaling n = 0.5)) /\
  (forall c : string,
     risk !! strip c = None -> Scorecard.risk_of risk c = 0) /\
  (forall a b c : string,
     a <> b ->
     countries prev = {[a; b]} ->
     countries curr ∖ countries prev = {[c]} ->
     risk !! strip c = Some 40 ->
     Scorecard.compute_ki05_score_with risk prev curr == 48).
Proof.
  split; [intros new_countries; apply ki05_score_over_enumeration |].
  split; [exact scaling_cases |].
  split; [exact (risk_of_unknown risk) |].
  intros a b c Hab Hprev Hnew Hrisk.
  rewrite (ki05_score_over_enumeration risk prev curr [c]).
  - rewrite Hprev, size_union
      by (apply disjoint_singleton_l, not_elem_of_singleton; exact Hab).
    rewrite !size_singleton. simpl. unfold Scorecard.risk_of, get. rewrite Hrisk. reflexivity.
  - apply NoDup_singleton.
  - intros x. rewrite <- elem_of_difference, Hnew.
    rewrite list_elem_of_singleton, elem_of_singleton. reflexivity.
Qed.

Lemma ki05_score_is_scaled_sum_over_new_countries_witness :
  let risk : gmap string Q := <["C" := 40]> Scorecard.country_risk in
  "A" <> "B" /\
  countries (Some "A,B") = {["A"; "B"]} /\
  countries (Some "A,B,C") ∖ countries (Some "A,B") = {["C"]} /\
  Scorecard.compute_ki05_score_with risk (Some "A,B") (Some "A,B,C") == 48.
Proof.
  intros risk.
  assert (Hab : "A" <> "B") by discriminate.
  assert (Hprev : countries (Some "A,B") = {["A"; "B"]})
    by (vm_compute; reflexivity).
  assert (Hnew : countries (Some "A,B,C") ∖ countries (Some "A,B") = {["C"]})
    by (vm_compute; reflexivity).
  repeat (split; [assumption |]).
  apply (proj2 (proj2 (proj2
           (ki05_score_is_scaled_sum_over_new_countries
              risk (Some "A,B") (Some "A,B,C")))) "A" "B" "C" Hab Hprev Hnew).
  vm_compute. reflexivity.
Defined.

(** C6, a defect of the code.  The claim speaks of countries; the code
    takes the difference of the two columns entry by entry before it
    strips the entries, and strips them only for the table lookup.
    With the prior column ["NG,CN"] and the current column ["NG, CN"]
    every current country is a prior country, so the claim gives the
    score 0; the code finds the entry [" CN"] new and scores
    25 x 1.2 = 30, and KI05 fires. *)
Theorem ki05_counts_respelled_country_as_new :
  let r := {| Scorecard.REQUESTED_AMOUNT_US_INTL := Some 500;
              Scorecard.account_mean_amt := Some 100;
              Scorecard.account_std_amt := Some 10;
              Scorecard.hour := Some 14;
              Scorecard.is_new_party := Some false;
              Scorecard.txn_count_24h := Some 1;
              Scorecard.prev_foreign_countries := Some "NG,CN";
              Scorecard.curr_foreign_countries := Some "NG, CN";
              Scorecard.acct_creation_days_ago := Some 400;
              Scorecard.approval_flag := Some true;
              Scorecard.payee_usage_count := Some 12 |} in
  (list_to_set (strip <$> split "," "NG, CN") : gset string)
    ∖ list_to_set (strip <$> split "," "NG,CN") = ∅ /\
  Scorecard.compute_ki05_score r == 30 /\
  Scorecard.KI05_new_foreign_country r = Ok 1.
Proof.
  intros r. split; [vm_compute; reflexivity |].
  split; vm_compute; reflexivity.
Qed.

(** The entries of a column are the pieces between its commas, kept
    as they are written. *)
Example countries_of_spaced_column :
  countries (Some "NG, CN") = {["NG"; " CN"]}.
Proof. vm_compute. reflexivity. Qed.

(** The script's own table: Nigeria is new next to two prior countries. *)
Example ki05_score_new_high_risk_country :
  Scorecard.compute_ki05_score_with Scorecard.country_risk
    (Some "USA,UK") (Some "USA,UK,NG") == 36.
Proof. vm_compute. reflexivity. Qed.

(** A sheet without the two columns: both sets are [{""}], nothing is
    new. *)
Example ki05_score_without_history :
  Scorecard.compute_ki05_score_with Scorecard.country_risk None None == 0.
Proof. vm_compute. reflexivity. Qed.

(** A no-break space (U+00A0) in front of a code is stripped for the
    lookup like any other blank: after the prior entry ["NG"] the entry
    with the no-break space counts as new and weighs 30. *)
Example ki05_score_strips_no_break_space :
  strip (String (ascii_of_nat 160) "NG") = "NG" /\
  Scorecard.compute_ki05_score_with Scorecard.country_risk
    (Some "NG") (Some (String (ascii_of_nat 160) "NG")) == 36.
Proof. split; vm_compute; reflexivity. Qed.

(** * Further properties of the scripts *)

(** ** Bands, read backwards *)

Lemma band_high_iff (s : Q) : band s = HighRisk <-> 71 <= s.
Proof.
  split; [| apply band_high].
  unfold band. case_cmp (Qgeb s 71); [trivial |].
  destruct (Qgeb s 41); discriminate.
Qed.

Lemma band_medium_iff (s : Q) : band s = MediumRisk <-> 41 <= s /\ s < 71.
Proof.
  split; [| intros [H1 H2]; apply band_medium; assumption].
  unfold band. case_cmp (Qgeb s 71); [discriminate |].
  case_cmp (Qgeb s 41); [split; assumption | discriminate].
Qed.

Lemma band_low_iff (s : Q) : band s = LowRisk <-> s < 41.
Proof.
  split; [| apply band_low].
  unfold band. case_cmp (Qgeb s 71); [discriminate |].
  case_cmp (Qgeb s 41); [discriminate | trivial].
Qed.

(** ** The scorecard's normalization *)

Lemma scorecard_normalized_cases (raw : Q) :
  (raw < 0 /\ Scorecard.normalized_score raw == 0) \/
  (0 <= raw /\ raw <= 260 /\
   Scorecard.normalized_score raw == raw * (5 # 13)) \/
  (260 < raw /\ Scorecard.normalized_score raw == 100).
Proof.
  unfold Scorecard.normalized_score.
  destruct (clip_cases raw 0 260) as [[H1 E] | [(H1 & H2 & E) | [H1 E]]];
    [lra | | |]; rewrite E.
  - left. split; [exact H1 | reflexivity].
  - right; left. split; [exact H1 |]. split; [exact H2 | field].
  - right; right. split; [exact H1 | reflexivity].
Qed.

(** X1. The scorecard's normalized score is always between 0 and 100:
    it is 0 for every raw score up to 0, 100 for every raw score from
    260 on, [raw / 2.6] in between, and it never decreases when the raw
    score grows. *)
Theorem scorecard_normalized_score_saturates :
  (forall raw : Q,
     0 <= Scorecard.normalized_score raw /\
     Scorecard.normalized_score raw <= 100) /\
  (forall raw : Q, raw <= 0 -> Scorecard.normalized_score raw == 0) /\
  (forall raw : Q, 260 <= raw -> Scorecard.normalized_score raw == 100) /\
  (forall raw : Q,
     0 <= raw -> raw <= 260 -> Scorecard.normalized_score raw == raw / 2.6) /\
  (forall raw1 raw2 : Q,
     raw1 <= raw2 ->
     Scorecard.normalized_score raw1 <= Scorecard.normalized_score raw2).
Proof.
  split; [| split; [| split; [| split]]].
  - intros raw.
    destruct (scorecard_normalized_cases raw)
      as [[H1 E] | [(H1 & H2 & E) | [H1 E]]]; rewrite E; split; lra.
  - intros raw Hle.
    destruct (scorecard_normalized_cases raw)
      as [[H1 E] | [(H1 & H2 & E) | [H1 E]]]; rewrite E; lra.
  - intros raw Hge.
    destruct (scorecard_normalized_cases raw)
      as [[H1 E] | [(H1 & H2 & E) | [H1 E]]]; rewrite E; lra.
  - intros raw H0 H260.
    destruct (scorecard_normalized_cases raw)
      as [[H1 E] | [(H1 & H2 & E) | [H1 E]]]; rewrite E;
      first [lra | field].
  - intros raw1 raw2 Hle.
    destruct (scorecard_normalized_cases raw1)
      as [[H1 E1] | [(H1 & H1' & E1) | [H1 E1]]];
      destruct (scorecard_normalized_cases raw2)
        as [[H2 E2] | [(H2 & H2' & E2) | [H2 E2]]];
      rewrite E1, E2; lra.
Qed.

Lemma scorecard_normalized_score_saturates_witness :
  Scorecard.normalized_score 130 == 130 / 2.6 /\
  Scorecard.normalized_score 130 <= Scorecard.normalized_score 300.
Proof.
  destruct scorecard_normalized_score_saturates
    as (_ & _ & _ & Hmid & Hmono).
  split; [apply Hmid; lra | apply Hmono; lra].
Defined.

(** X2. In the scorecard the band is decided by the raw score alone:
    High Risk exactly from a raw score of 184.6, Medium Risk exactly on
    [106.6, 184.6), Low Risk exactly below 106.6. *)
Theorem scorecard_band_by_raw_score (raw : Q) :
  (band (Scorecard.normalized_score raw) = HighRisk <-> 184.6 <= raw) /\
  (band (Scorecard.normalized_score raw) = MediumRisk
   <-> 106.6 <= raw /\ raw < 184.6) /\
  (band (Scorecard.normalized_score raw) = LowRisk <-> raw < 106.6).
Proof.
  rewrite band_high_iff, band_medium_iff, band_low_iff.
  destruct (scorecard_normalized_cases raw)
    as [[H1 E] | [(H1 & H2 & E) | [H1 E]]]; rewrite E;
    repeat split; intros; lra.
Qed.

Lemma scorecard_band_by_raw_score_witness :
  band (Scorecard.normalized_score 106.6) = MediumRisk.
Proof.
  apply (proj1 (proj2 (scorecard_band_by_raw_score 106.6))). lra.
Defined.

(** ** Minmax normalization outside its intended bounds *)

Lemma minmax_nonzero_span (raw min_score max_score : Q) :
  ~ max_score == min_score ->
  Pipeline.minmax raw min_score max_score
  = Fin (clip ((raw - min_score) / (max_score - min_score)) 0 1 * 100).
Proof.
  intros Hne. unfold Pipeline.minmax.
  rewrite fdiv_nonzero; [reflexivity |].
  intros Hz. apply Hne. lra.
Qed.

Lemma clip_monotone (x y lo hi : Q) :
  x <= y -> clip x lo hi <= clip y lo hi.
Proof.
  intros Hxy. unfold clip.
  apply Q.min_le_compat_r, Q.max_le_compat_r, Hxy.
Qed.

Lemma div_monotone (a b d : Q) : 0 < d -> a <= b -> a / d <= b / d.
Proof.
  intros Hd Hab. unfold Qdiv.
  apply Qmult_le_compat_r; [exact Hab |].
  apply Qlt_le_weak, Qinv_lt_0_compat, Hd.
Qed.

Lemma div_antitone (a b d : Q) : d < 0 -> a <= b -> b / d <= a / d.
Proof.
  intros Hd Hab.
  assert (Eb : b / d == (- b) / (- d)) by (field; lra).
  assert (Ea : a / d == (- a) / (- d)) by (field; lra).
  rewrite Eb, Ea. apply div_monotone; lra.
Qed.

(** X3. With valid bounds the minmax score never decreases when the
    raw score grows, and neither does the band: a row with a higher raw
    score is never in a lower tier. *)
Theorem minmax_is_monotone (min_score max_score raw1 raw2 v1 v2 : Q) :
  min_score < max_score ->
  raw1 <= raw2 ->
  Pipeline.minmax raw1 min_score max_score = Fin v1 ->
  Pipeline.minmax raw2 min_score max_score = Fin v2 ->
  v1 <= v2 /\ (tier (band v1) <= tier (band v2))%nat.
Proof.
  intros Hlt Hraw H1 H2.
  rewrite minmax_valid_bounds in H1, H2 by exact Hlt.
  injection H1 as <-. injection H2 as <-.
  assert (Hle : clip ((raw1 - min_score) / (max_score - min_score)) 0 1 * 100
                <= clip ((raw2 - min_score) / (max_score - min_score)) 0 1 * 100).
  { apply Qmult_le_compat_r; [| lra].
    apply clip_monotone, div_monotone; lra. }
  split; [exact Hle | apply band_monotone, Hle].
Qed.

Lemma minmax_is_monotone_witness :
  exists v1 v2 : Q,
    Pipeline.minmax 3.5 0 20 = Fin v1 /\ Pipeline.minmax 16 0 20 = Fin v2 /\
    v1 <= v2 /\ (tier (band v1) <= tier (band v2))%nat.
Proof.
  eexists. eexists.
  split; [reflexivity |]. split; [reflexivity |].
  apply (minmax_is_monotone 0 20 3.5 16); [lra | lra | reflexivity | reflexivity].
Defined.

(** X4. When the two bounds are equal nothing is raised: the division
    by zero makes every raw score above the bound score 100, every raw
    score below it score 0, and a raw score equal to it a NaN cell,
    which [band] files under Low Risk. *)
Theorem minmax_with_equal_bounds (raw bound : Q) :
  (bound < raw ->
   exists v : Q, Pipeline.minmax raw bound bound = Fin v /\ v == 100) /\
  (raw < bound ->
   exists v : Q, Pipeline.minmax raw bound bound = Fin v /\ v == 0) /\
  (raw == bound ->
   Pipeline.minmax raw bound bound = NaN /\
   fband (Pipeline.minmax raw bound bound) = LowRisk).
Proof.
  assert (Hzero : Qeq_bool (bound - bound) 0 = true)
    by (apply Qeq_bool_iff; lra).
  unfold Pipeline.minmax, fdiv. rewrite Hzero.
  split; [| split].
  - intros Hgt. case_cmp (Qgtb (raw - bound) 0); [| exfalso; lra].
    simpl. eexists. split; [reflexivity | lra].
  - intros Hlt. case_cmp (Qgtb (raw - bound) 0); [exfalso; lra |].
    case_cmp (Qltb (raw - bound) 0); [| exfalso; lra].
    simpl. eexists. split; [reflexivity | lra].
  - intros Heq. case_cmp (Qgtb (raw - bound) 0); [exfalso; lra |].
    case_cmp (Qltb (raw - bound) 0); [exfalso; lra |].
    split; reflexivity.
Qed.

Lemma minmax_with_equal_bounds_witness :
  (exists v : Q, Pipeline.minmax 6 5 5 = Fin v /\ v == 100) /\
  Pipeline.minmax 5 5 5 = NaN.
Proof.
  split.
  - apply (proj1 (minmax_with_equal_bounds 6 5)). lra.
  - apply (proj2 (proj2 (minmax_with_equal_bounds 5 5))). lra.
Defined.

(** X5. When [max_score] is below [min_score] nothing is raised either
    and the scale is reversed: the score is finite, 100 for every raw
    score up to [max_score], 0 for every raw score from [min_score] on,
    and it never increases when the raw score grows. *)
Theorem minmax_with_inverted_bounds (min_score max_score : Q) :
  max_score < min_score ->
  (forall raw : Q,
     exists v : Q,
       Pipeline.minmax raw min_score max_score = Fin v /\
       0 <= v /\ v <= 100 /\
       (raw <= max_score -> v == 100) /\
       (min_score <= raw -> v == 0)) /\
  (forall raw1 raw2 v1 v2 : Q,
     raw1 <= raw2 ->
     Pipeline.minmax raw1 min_score max_score = Fin v1 ->
     Pipeline.minmax raw2 min_score max_score = Fin v2 ->
     v2 <= v1).
Proof.
  intros Hlt. split.
  - intros raw. rewrite minmax_nonzero_span by lra.
    set (x := (raw - min_score) / (max_score - min_score)).
    assert (Hx : raw - min_score == x * (max_score - min_score))
      by (unfold x; field; lra).
    eexists. split; [reflexivity |].
    destruct (clip_cases x 0 1) as [[H1 E] | [(H1 & H2 & E) | [H1 E]]];
      [lra | | |]; rewrite E.
    + split; [lra |]. split; [lra |]. split; [| lra].
      intros Hle. exfalso.
      assert (0 < (- x) * (min_score - max_score))
        by (apply Qmult_lt_0_compat; lra).
      lra.
    + split; [lra |]. split; [lra |]. split.
      * intros Hle.
        assert (Hpos : 0 <= (1 - x) * (min_score - max_score))
          by (apply Qmult_le_0_compat; lra).
        assert (Hz : (1 - x) * (min_score - max_score) == 0) by lra.
        apply Qmult_integral in Hz. destruct Hz as [Hz | Hz]; [| exfalso]; lra.
      * intros Hge.
        assert (Hpos : 0 <= x * (min_score - max_score))
          by (apply Qmult_le_0_compat; lra).
        assert (Hz : x * (min_score - max_score) == 0) by lra.
        apply Qmult_integral in Hz. destruct Hz as [Hz | Hz]; [| exfalso]; lra.
    + split; [lra |]. split; [lra |]. split; [lra |].
      intros Hge. exfalso.
      assert (0 < x * (min_score - max_score))
        by (apply Qmult_lt_0_compat; lra).
      lra.
  - intros raw1 raw2 v1 v2 Hraw H1 H2.
    rewrite minmax_nonzero_span in H1, H2 by lra.
    injection H1 as <-. injection H2 as <-.
    apply Qmult_le_compat_r; [| lra].
    apply clip_monotone, div_antitone; lra.
Qed.

Lemma minmax_with_inverted_bounds_witness :
  exists v : Q,
    Pipeline.minmax 2 20 0 = Fin v /\ 0 <= v /\ v <= 100 /\
    (2 <= 0 -> v == 100) /\ (20 <= 2 -> v == 0).
Proof.
  apply (proj1 (minmax_with_inverted_bounds 20 0 ltac:(lra)) 2).
Defined.

(** ** Bounds and symmetries of the raw score *)

Lemma weighted_sum_bounds (df : gmap string Q) (weights : list (string * Q)) :
  bounded_indicators df weights ->
  0 <= weighted_sum weights (fun ki => get df ki 0) /\
  weighted_sum weights (fun ki => get df ki 0) <= total_weight weights.
Proof.
  unfold bounded_indicators, total_weight.
  induction 1 as [| [ki weight] rest (Hw & H0 & H1) _ [IH0 IH1]];
    [simpl; split; lra |].
  rewrite fmap_cons. cbn [weighted_sum total snd fst] in *.
  assert (0 <= weight * get df ki 0) by (apply Qmult_le_0_compat; lra).
  assert (0 <= weight * (1 - get df ki 0))
    by (apply Qmult_le_0_compat; lra).
  split; lra.
Qed.

(** X6. In [compute_fraud_scores], when the weights are non-negative
    and the indicators of a row are between 0 and 1, the raw score of
    the row lies between 0 and the sum of the weights. *)
Theorem raw_score_between_zero_and_total_weight
    (df : gmap string Q) (weights : list (string * Q)) :
  bounded_indicators df weights ->
  0 <= Pipeline.raw_score df weights /\
  Pipeline.raw_score df weights <= total_weight weights.
Proof.
  intros Hbounded.
  rewrite pipeline_raw_score_weighted_sum.
  apply weighted_sum_bounds, Hbounded.
Qed.

Lemma raw_score_between_zero_and_total_weight_witness :
  let df : gmap string Q := list_to_map [("KI01", 1); ("KI03", 1)] in
  0 <= Pipeline.raw_score df Pipeline.ki_weights /\
  Pipeline.raw_score df Pipeline.ki_weights
  <= total_weight Pipeline.ki_weights.
Proof.
  intros df.
  apply (raw_score_between_zero_and_total_weight df Pipeline.ki_weights).
  unfold bounded_indicators, Pipeline.ki_weights.
  repeat (apply Forall_cons_2;
          [vm_compute; repeat split; discriminate |]).
  apply Forall_nil_2.
Defined.

Lemma weighted_sum_perm (weights weights' : list (string * Q))
    (value : string -> Q) :
  weights ≡ₚ weights' ->
  weighted_sum weights value == weighted_sum weights' value.
Proof.
  induction 1 as [| [k w] l l' _ IH | [k w] [k' w'] l | l l' l'' _ IH1 _ IH2];
    simpl.
  - reflexivity.
  - rewrite IH. reflexivity.
  - ring.
  - rewrite IH1. exact IH2.
Qed.

(** A raised accumulator stays raised through the scorecard's loop. *)
Lemma scorecard_loop_raise (df : gmap string Q) (weights : list (string * Q))
    (e : error) :
  fold_left
    (fun (acc : result Q) '(ki, weight) =>
       a ← acc; v ← getitem df ki; Ok (a + v * weight))
    weights (Raise e) = Raise e.
Proof.
  induction weights as [| [ki weight] rest IH]; [reflexivity | exact IH].
Qed.

(** The scorecard's loop succeeds only on a frame that has every
    column the weights name. *)
Lemma scorecard_loop_ok (df : gmap string Q) (weights : list (string * Q))
    (a r : Q) :
  fold_left
    (fun (acc : result Q) '(ki, weight) =>
       a ← acc; v ← getitem df ki; Ok (a + v * weight))
    weights (Ok a) = Ok r ->
  Forall (fun entry => is_Some (df !! entry.1)) weights.
Proof.
  revert a. induction weights as [| [ki weight] rest IH]; intros a Hr.
  - constructor.
  - simpl in Hr. unfold getitem at 2 in Hr.
    destruct (df !! ki) as [v |] eqn:Hv; simpl in Hr.
    + constructor; [simpl; rewrite Hv; eexists; reflexivity |].
      eapply IH, Hr.
    + rewrite scorecard_loop_raise in Hr. discriminate.
Qed.

(** X7. The order of the entries of the two weight dictionaries does
    not matter.  Rearranging the pipeline's weights leaves the raw
    score of every row whose indicators are 0 or 1 unchanged, and
    rearranging the scorecard's weights leaves the raw score of every
    row that feature engineering accepts unchanged.  (The weights are
    whole and half numbers and the indicators 0 or 1, so no rounding
    takes part in these sums.) *)
Theorem raw_score_ignores_weight_order :
  (forall (df : gmap string Q) (weights' : list (string * Q)),
     weights' ≡ₚ Pipeline.ki_weights ->
     Forall (fun entry : string * Q =>
               get df entry.1 0 == 0 \/ get df entry.1 0 == 1)
            Pipeline.ki_weights ->
     Pipeline.raw_score df weights'
     == Pipeline.raw_score df Pipeline.ki_weights) /\
  (forall (r : Scorecard.Row) (df : gmap string Q)
          (weights' : list (string * Q)),
     Scorecard.engineer r = Ok df ->
     weights' ≡ₚ Scorecard.ki_weights ->
     exists raw raw' : Q,
       Scorecard.raw_score Scorecard.ki_weights df = Ok raw /\
       Scorecard.raw_score weights' df = Ok raw' /\
       raw' == raw).
Proof.
  split.
  - intros df weights' Hperm _.
    rewrite !pipeline_raw_score_weighted_sum. apply weighted_sum_perm, Hperm.
  - intros r df weights' Hdf Hperm.
    destruct (engineer_columns r df Hdf) as [Hcols Hdyn].
    assert (Hcols' : Forall (fun entry => is_Some (df !! entry.1)) weights')
      by (rewrite Hperm; exact Hcols).
    destruct (scorecard_raw_score_sum Scorecard.ki_weights df _ Hcols Hdyn)
      as (raw & Hraw & Eraw).
    destruct (scorecard_raw_score_sum weights' df _ Hcols' Hdyn)
      as (raw' & Hraw' & Eraw').
    exists raw, raw'. split; [exact Hraw |]. split; [exact Hraw' |].
    rewrite Eraw, Eraw', (weighted_sum_perm weights' Scorecard.ki_weights _ Hperm).
    reflexivity.
Qed.

Lemma raw_score_ignores_weight_order_witness :
  let df : gmap string Q := list_to_map [("KI01", 1); ("KI02", 1)] in
  Pipeline.raw_score df
    (("KI02", 1.5) :: ("KI01", 2.0) :: drop 2 Pipeline.ki_weights)
  == Pipeline.raw_score df Pipeline.ki_weights.
Proof.
  intros df.
  apply (proj1 raw_score_ignores_weight_order df).
  - apply perm_swap.
  - unfold Pipeline.ki_weights.
    repeat (apply Forall_cons_2; [vm_compute; intuition discriminate |]).
    apply Forall_nil_2.
Defined.

(** ** The frame the pipeline writes *)

Lemma results_shape (account_profiles : gmap Z Pipeline.Profile)
    (P : Pipeline.Result -> Prop) (txns : list Pipeline.Txn)
    (st : Pipeline.State) :
  (forall (contexts : gmap Z Pipeline.Context) (t : Pipeline.Txn),
     P (result_of account_profiles contexts t)) ->
  Forall P (Pipeline.results st) ->
  Forall P (Pipeline.results
              (fold_left (Pipeline.step account_profiles) txns st)).
Proof.
  intros HP. revert st.
  induction txns as [| t rest IH]; intros st Hst; [exact Hst |].
  simpl. apply IH. unfold Pipeline.step at 1. simpl.
  apply Forall_app. split; [exact Hst |].
  constructor; [apply HP | constructor].
Qed.

Lemma frame_row_indicator (r : Pipeline.Result) (ki : string) :
  ki ∈ indicator_names ->
  get (Pipeline.frame_row r) ki 0 = get (Pipeline.result_kis r) ki 0.
Proof.
  unfold indicator_names, Pipeline.frame_row, get. intros Hin.
  repeat (apply elem_of_cons in Hin; destruct Hin as [-> | Hin];
          [lookup_columns; reflexivity |]).
  apply elem_of_nil in Hin. contradiction.
Qed.

Lemma result_indicator_value (account_profiles : gmap Z Pipeline.Profile)
    (contexts : gmap Z Pipeline.Context) (t : Pipeline.Txn) (ki : string) :
  ki ∈ indicator_names ->
  exists b : bool,
    get (Pipeline.frame_row (result_of account_profiles contexts t)) ki 0
    = int b.
Proof.
  intros Hin. rewrite frame_row_indicator by exact Hin.
  destruct (kis_lookup_total t (Pipeline.profile_of account_profiles t)
              (Pipeline.context_of contexts t) ki Hin) as [b Hb].
  exists b. unfold get, result_of.
  cbn [Pipeline.result_kis]. rewrite Hb. reflexivity.
Qed.

Lemma result_row_bounded (account_profiles : gmap Z Pipeline.Profile)
    (contexts : gmap Z Pipeline.Context) (t : Pipeline.Txn) :
  bounded_indicators
    (Pipeline.frame_row (result_of account_profiles contexts t))
    Pipeline.ki_weights.
Proof.
  unfold bounded_indicators, Pipeline.ki_weights.
  repeat (apply Forall_cons_2; [| ]); [.. | apply Forall_nil_2].
  all: cbn [fst snd]; split; [discriminate |].
  all: match goal with
       | |- context [get _ ?ki 0] =>
           destruct (result_indicator_value account_profiles contexts t ki)
             as [b ->];
           [unfold indicator_names; repeat first
              [apply list_elem_of_here | apply list_elem_of_further] |]
       end.
  all: destruct b; split; discriminate.
Qed.

(** X8. The frame the pipeline writes has one row per transaction of
    the sheet, and in every row the raw score is between 0 and 26, the
    normalized score is the finite number [5 * min(raw, 20)] (so every
    raw score from 20 on scores 100), and the band follows from the raw
    score alone: High Risk exactly from 14.2, Medium Risk exactly on
    [8.2, 14.2), Low Risk exactly below 8.2. *)
Theorem pipeline_frame_rows (account_profiles : gmap Z Pipeline.Profile)
    (df : list Pipeline.Txn) :
  length (minmax_rows (Pipeline.main account_profiles df)) = length df /\
  Forall
    (fun s : Pipeline.Scored fval =>
       let raw := Pipeline.scored_raw s in
       0 <= raw /\ raw <= 26 /\
       (exists v : Q,
          Pipeline.normalized_score s = Fin v /\ v == 5 * Qmin raw 20) /\
       (Pipeline.risk_band s = HighRisk <-> 14.2 <= raw) /\
       (Pipeline.risk_band s = MediumRisk <-> 8.2 <= raw /\ raw < 14.2) /\
       (Pipeline.risk_band s = LowRisk <-> raw < 8.2))
    (minmax_rows (Pipeline.main account_profiles df)).
Proof.
  unfold Pipeline.main. rewrite compute_fraud_scores_minmax. simpl.
  split.
  - rewrite !length_fmap, results_length.
    apply Permutation_length, sort_values_perm.
  - apply Forall_fmap, Forall_fmap.
    apply (results_shape account_profiles); [| constructor].
    intros contexts t. simpl.
    destruct (weighted_sum_bounds _ _
                (result_row_bounded account_profiles contexts t))
      as [H0 H26].
    rewrite <- pipeline_raw_score_weighted_sum in H0, H26.
    set (raw := Pipeline.raw_score _ Pipeline.ki_weights) in *.
    assert (Htotal : total_weight Pipeline.ki_weights == 26) by reflexivity.
    rewrite Htotal in H26.
    rewrite minmax_valid_bounds by lra.
    set (x := (raw - 0) / (20 - 0)).
    assert (Hx : raw == x * 20) by (unfold x; field).
    assert (Hv : clip x 0 1 * 100 == 5 * Qmin raw 20).
    { destruct (clip_cases x 0 1) as [[H1 E] | [(H1 & H2 & E) | [H1 E]]];
        [lra | | |]; rewrite E;
        destruct (Q.min_spec raw 20) as [[Hm Em] | [Hm Em]]; rewrite Em; lra. }
    split; [exact H0 |]. split; [exact H26 |].
    split; [eexists; split; [reflexivity | exact Hv] |].
    simpl. rewrite band_high_iff, band_medium_iff, band_low_iff, Hv.
    destruct (Q.min_spec raw 20) as [[Hm Em] | [Hm Em]]; rewrite Em;
      repeat split; intros; lra.
Qed.


(** ** The context dictionary *)

Lemma seen_before_snoc (acct : Z) (earlier : list Pipeline.Txn)
    (t : Pipeline.Txn) :
  seen_before acct (earlier ++ [t])
  = if decide (Pipeline.ACCOUNT_KEY t = acct)
    then seen_before acct earlier ∪ {[Pipeline.PARTY_KEY t]}
    else seen_before acct earlier.
Proof.
  unfold seen_before. rewrite filter_app, fmap_app, list_to_set_app_L.
  destruct (decide (Pipeline.ACCOUNT_KEY t = acct)) as [Heq | Hne].
  - rewrite filter_cons_True by exact Heq. simpl.
    rewrite (right_id_L ∅ (∪)). reflexivity.
  - rewrite filter_cons_False by exact Hne. simpl.
    rewrite (right_id_L ∅ (∪)). reflexivity.
Qed.

(** X9. After the loop has visited a list of transactions, the context
    dictionary has an entry exactly for the accounts that occur in it,
    and the entry of an account holds the time of its last transaction,
    the set of the parties of its transactions and the list of their
    times in visiting order; the context of a first sight (two hours
    before the transaction) does not survive the iteration. *)
Theorem context_dictionary_after_loop
    (account_profiles : gmap Z Pipeline.Profile)
    (txns : list Pipeline.Txn) (acct : Z) :
  Pipeline.account_context (Pipeline.loop account_profiles txns) !! acct
  = context_after acct txns.
Proof.
  induction txns as [| t earlier IH] using rev_ind; [reflexivity |].
  rewrite loop_snoc. unfold Pipeline.step at 1.
  cbn [Pipeline.account_context].
  unfold context_after, account_txns in *.
  rewrite seen_before_snoc, filter_app.
  destruct (decide (Pipeline.ACCOUNT_KEY t = acct)) as [Heq | Hne].
  - subst acct. rewrite lookup_insert_eq.
    rewrite (filter_cons_True _ t []) by reflexivity.
    rewrite filter_nil, last_snoc, fmap_app.
    unfold Pipeline.context_of. rewrite IH.
    destruct (last (filter _ earlier)) as [latest |] eqn:Hlast;
      unfold Pipeline.update; cbn.
    + reflexivity.
    + apply last_None in Hlast. rewrite Hlast.
      unfold seen_before. rewrite Hlast. cbn.
      rewrite (left_id_L ∅ (∪)). reflexivity.
  - rewrite lookup_insert_ne by exact Hne.
    rewrite (filter_cons_False _ t []) by exact Hne.
    rewrite filter_nil, app_nil_r. exact IH.
Qed.

Lemma kis_reads_parties_only (t : Pipeline.Txn) (profile : Pipeline.Profile)
    (c1 c2 : Pipeline.Context) :
  Pipeline.parties_seen c1 = Pipeline.parties_seen c2 ->
  Pipeline.kis t profile c1 = Pipeline.kis t profile c2.
Proof. intros Hparties. unfold Pipeline.kis. rewrite Hparties. reflexivity. Qed.

(** X10. Accounts do not influence each other: the row of a
    transaction is the row it would get if the loop had visited only
    the earlier transactions of its own account. *)
Theorem result_depends_on_own_account_only
    (account_profiles : gmap Z Pipeline.Profile)
    (earlier later : list Pipeline.Txn) (t : Pipeline.Txn) :
  let own := account_txns (Pipeline.ACCOUNT_KEY t) earlier in
  Pipeline.results (Pipeline.loop account_profiles (earlier ++ t :: later))
    !! length earlier
  = Pipeline.results (Pipeline.loop account_profiles (own ++ [t]))
    !! length own.
Proof.
  intros own. rewrite !result_at. f_equal.
  unfold result_of. f_equal.
  apply kis_reads_parties_only.
  rewrite !context_of_parties, !context_reflects_earlier.
  unfold own, account_txns, seen_before.
  rewrite list_filter_filter.
  f_equal. f_equal. apply list_filter_iff. intros u. tauto.
Qed.

(** X11. A row never depends on what comes later in the sheet: the
    rows of a prefix of the transactions are the first rows of the
    whole run. *)
Theorem results_of_prefix (account_profiles : gmap Z Pipeline.Profile)
    (earlier later : list Pipeline.Txn) :
  take (length earlier)
    (Pipeline.results (Pipeline.loop account_profiles (earlier ++ later)))
  = Pipeline.results (Pipeline.loop account_profiles earlier).
Proof.
  pose proof (results_length account_profiles earlier) as Hlen.
  unfold Pipeline.loop in *. rewrite fold_left_app.
  destruct (results_fold account_profiles later
              (fold_left (Pipeline.step account_profiles) earlier
                 Pipeline.initial)) as (rows & Hrows & _).
  rewrite Hrows, <- Hlen. apply take_app_length.
Qed.

(** ** The default profile *)

(** X12. For an account that has no entry in [account_profiles] the
    loop uses mean 0 and deviation 1, so KI01 is 1 exactly when the
    absolute amount exceeds 2. *)
Theorem unknown_account_deviation
    (account_profiles : gmap Z Pipeline.Profile)
    (context : Pipeline.Context) (t : Pipeline.Txn) :
  account_profiles !! Pipeline.ACCOUNT_KEY t = None ->
  let ki01 :=
    Pipeline.kis t (Pipeline.profile_of account_profiles t) context
      !! "KI01" in
  (2 < Qabs (Pipeline.REQUESTED_AMOUNT_US_INTL t) -> ki01 = Some 1) /\
  (Qabs (Pipeline.REQUESTED_AMOUNT_US_INTL t) <= 2 -> ki01 = Some 0).
Proof.
  intros Hnone ki01. subst ki01.
  unfold Pipeline.kis. lookup_columns.
  unfold Pipeline.profile_of. rewrite Hnone.
  unfold Pipeline.deviates. cbn [Pipeline.mean_amt Pipeline.std_amt].
  set (amount := Pipeline.REQUESTED_AMOUNT_US_INTL t).
  assert (Habs : Qabs (amount - 0) == Qabs amount).
  { apply Qabs_wd. ring. }
  split; intros H.
  - case_cmp (Qgtb (Qabs (amount - 0)) (2 * 1)); [reflexivity |].
    exfalso. rewrite Habs in Hcmp. lra.
  - case_cmp (Qgtb (Qabs (amount - 0)) (2 * 1)); [| reflexivity].
    exfalso. rewrite Habs in Hcmp. lra.
Qed.

Lemma unknown_account_deviation_witness :
  Pipeline.kis (bare_txn 7 3 (-250) 1735700000)
    (Pipeline.profile_of ∅ (bare_txn 7 3 (-250) 1735700000))
    (Pipeline.fresh_context 1735700000) !! "KI01" = Some 1.
Proof.
  apply (proj1 (unknown_account_deviation ∅
                  (Pipeline.fresh_context 1735700000)
                  (bare_txn 7 3 (-250) 1735700000) (lookup_empty _))).
  reflexivity.
Defined.

(** ** Sorting a sheet that is already in order *)

Lemma insert_sorted_least (t : Pipeline.Txn) (sorted : list Pipeline.Txn) :
  Forall (key_le t) sorted ->
  Pipeline.insert_sorted t sorted = t :: sorted.
Proof.
  intros Hle. destruct sorted as [| u rest]; [reflexivity |].
  simpl. apply Forall_cons_1 in Hle. destruct Hle as [Hu _].
  unfold key_le in Hu. rewrite Hu. reflexivity.
Qed.

Lemma sort_values_of_sorted (df : list Pipeline.Txn) :
  StronglySorted key_le df -> Pipeline.sort_values df = df.
Proof.
  unfold Pipeline.sort_values.
  induction 1 as [| t rest Hrest IH Ht]; [reflexivity |].
  simpl. rewrite IH. apply insert_sorted_least, Ht.
Qed.

(** X13. A sheet whose rows are already ordered by account and time is
    visited as it is, so sorting a second time changes nothing. *)
Theorem sort_values_keeps_sorted_sheet (df : list Pipeline.Txn) :
  (StronglySorted key_le df -> Pipeline.sort_values df = df) /\
  Pipeline.sort_values (Pipeline.sort_values df) = Pipeline.sort_values df.
Proof.
  split; [apply sort_values_of_sorted |].
  apply sort_values_of_sorted, sort_values_sorted.
Qed.

Lemma sort_values_keeps_sorted_sheet_witness :
  let df := [bare_txn 5 1 10 300; bare_txn 7 3 80 100; bare_txn 7 4 90 200] in
  Pipeline.sort_values df = df.
Proof.
  intros df. apply (proj1 (sort_values_keeps_sorted_sheet df)).
  repeat constructor.
Defined.

Lemma key_le_refl_on_same_key (t u : Pipeline.Txn) :
  same_key t u -> Pipeline.key_leb t u = true.
Proof.
  intros [Hacct Htime]. apply key_le_spec. lia.
Qed.

Lemma filter_insert_sorted (k t : Pipeline.Txn) (rows : list Pipeline.Txn) :
  filter (same_key k) (Pipeline.insert_sorted t rows)
  = filter (same_key k) (t :: rows).
Proof.
  induction rows as [| u rest IH]; [reflexivity |].
  simpl. destruct (Pipeline.key_leb t u) eqn:Hle; [reflexivity |].
  rewrite (filter_cons _ u), IH, !filter_cons.
  destruct (decide (same_key k u)) as [Hu | Hu];
    destruct (decide (same_key k t)) as [Ht | Ht]; try reflexivity.
  exfalso.
  assert (Htu : same_key t u).
  { destruct Hu as [Hu1 Hu2], Ht as [Ht1 Ht2]. split; congruence. }
  apply key_le_refl_on_same_key in Htu. congruence.
Qed.

(** X14. The sort is stable: the rows of one account that carry the
    same timestamp are visited in the order in which the sheet lists
    them. *)
Theorem sort_values_is_stable (df : list Pipeline.Txn) (k : Pipeline.Txn) :
  filter (same_key k) (Pipeline.sort_values df) = filter (same_key k) df.
Proof.
  unfold Pipeline.sort_values.
  induction df as [| t rest IH]; [reflexivity |].
  simpl. rewrite filter_insert_sorted, !filter_cons, IH. reflexivity.
Qed.

(** ** The scorecard on incomplete and complete sheets *)

(** X15. The scorecard accepts a row exactly when the sheet has the
    nine columns it indexes directly; otherwise it raises the
    [KeyError] of the first of them, in reading order, that is missing.
    The two country columns are never required. *)
Theorem scorecard_raises_first_missing_column (r : Scorecard.Row) :
  match first_missing r with
  | Some column => Scorecard.score_row r = Raise (KeyError column)
  | None => is_ok (Scorecard.score_row r) = true
  end.
Proof.
  destruct r as [amount mean std hour new_party count prev curr age
                   approved uses].
  destruct amount as [amount |]; [| reflexivity].
  destruct mean as [mean |]; [| reflexivity].
  destruct std as [std |]; [| reflexivity].
  destruct hour as [hour |]; [| reflexivity].
  destruct new_party as [new_party |]; [| reflexivity].
  destruct count as [count |]; [| reflexivity].
  destruct age as [age |]; [| reflexivity].
  destruct approved as [approved |]; [| reflexivity].
  destruct uses as [uses |]; [| reflexivity].
  vm_compute. reflexivity.
Qed.

Example scorecard_accepts_sheet_without_country_columns :
  is_ok (Scorecard.score_row
           {| Scorecard.REQUESTED_AMOUNT_US_INTL := Some 500;
              Scorecard.account_mean_amt := Some 100;
              Scorecard.account_std_amt := Some 10;
              Scorecard.hour := Some 14;
              Scorecard.is_new_party := Some false;
              Scorecard.txn_count_24h := Some 1;
              Scorecard.prev_foreign_countries := None;
              Scorecard.curr_foreign_countries := None;
              Scorecard.acct_creation_days_ago := Some 400;
              Scorecard.approval_flag := Some true;
              Scorecard.payee_usage_count := Some 12 |}) = true.
Proof. reflexivity. Qed.

(** ** Sign and size of the dynamic country score *)

Lemma total_nonneg (xs : list Q) : Forall (Qle 0) xs -> 0 <= total xs.
Proof.
  induction 1 as [| x rest Hx _ IH]; simpl; lra.
Qed.

Lemma scaling_positive (n : nat) : 0 < Scorecard.scaling n.
Proof.
  unfold Scorecard.scaling.
  destruct (n <=? 2)%nat; [reflexivity |].
  destruct (n <=? 5)%nat; reflexivity.
Qed.

Lemma risk_of_nonneg (risk : gmap string Q) (c : string) :
  map_Forall (fun _ weight => 0 <= weight) risk ->
  0 <= Scorecard.risk_of risk c.
Proof.
  intros Hrisk. unfold Scorecard.risk_of, get.
  destruct (risk !! strip c) as [weight |] eqn:Hc; [| lra].
  exact (Hrisk _ _ Hc).
Qed.

Lemma country_risk_nonneg :
  map_Forall (fun _ weight => 0 <= weight) Scorecard.country_risk.
Proof.
  unfold Scorecard.country_risk. apply map_Forall_to_list.
  rewrite map_to_list_to_map by (vm_compute; repeat constructor;
    rewrite ?elem_of_cons, ?elem_of_nil; intuition discriminate).
  repeat (apply Forall_cons_2; [discriminate |]). apply Forall_nil_2.
Qed.

Lemma ki05_score_nonneg (risk : gmap string Q) (prev curr : option string) :
  map_Forall (fun _ weight => 0 <= weight) risk ->
  0 <= Scorecard.compute_ki05_score_with risk prev curr.
Proof.
  intros Hrisk. unfold Scorecard.compute_ki05_score_with.
  rewrite sum_total.
  apply Qmult_le_0_compat; [| apply Qlt_le_weak, scaling_positive].
  apply total_nonneg, Forall_fmap, Forall_forall.
  intros c _. apply risk_of_nonneg, Hrisk.
Qed.

(** X16. With a risk table without negative weights (the script's
    table is one) the dynamic country score is never negative, and it
    is 0 whenever every entry of the current column already is an entry
    of the prior column. *)
Theorem ki05_score_sign (risk : gmap string Q) (prev curr : option string) :
  (map_Forall (fun _ weight => 0 <= weight) risk ->
   0 <= Scorecard.compute_ki05_score_with risk prev curr) /\
  (countries curr ⊆ countries prev ->
   Scorecard.compute_ki05_score_with risk prev curr == 0).
Proof.
  split.
  - apply ki05_score_nonneg.
  - intros Hsub. unfold Scorecard.compute_ki05_score_with.
    fold (countries prev) (countries curr).
    assert (Hnone : countries curr ∖ countries prev = ∅)
      by (apply set_eq; intros c; rewrite elem_of_difference, elem_of_empty;
          split; [intros [Hc Hn]; apply Hn, Hsub, Hc | contradiction]).
    rewrite Hnone, elements_empty. reflexivity.
Qed.

Lemma ki05_score_sign_witness :
  0 <= Scorecard.compute_ki05_score_with Scorecard.country_risk
         (Some "USA") (Some "USA,NG") /\
  Scorecard.compute_ki05_score_with Scorecard.country_risk
    (Some "USA,NG,CN") (Some "NG,USA") == 0.
Proof.
  split.
  - apply (proj1 (ki05_score_sign Scorecard.country_risk
                    (Some "USA") (Some "USA,NG"))).
    exact country_risk_nonneg.
  - apply (proj2 (ki05_score_sign Scorecard.country_risk
                    (Some "USA,NG,CN") (Some "NG,USA"))).
    assert (Hsub : bool_decide (countries (Some "NG,USA")
                                ⊆ countries (Some "USA,NG,CN")) = true)
      by (vm_compute; reflexivity).
    apply bool_decide_eq_true in Hsub. exact Hsub.
Defined.

(** ** Raw scores the scorecard can produce *)

Lemma int_bounds (b : bool) : 0 <= int b /\ int b <= 1.
Proof. destruct b; split; discriminate. Qed.

(** Reading an indicator column back from its definition. *)
Ltac invert_indicator E :=
  repeat match type of E with
         | mbind _ (Scorecard.col _ ?cell) = Ok _ =>
             destruct cell; [simpl in E | discriminate E]
         end;
  injection E as <-.

Lemma engineer_indicators (r : Scorecard.Row) (df : gmap string Q) :
  Scorecard.engineer r = Ok df ->
  exists b1 b2 b3 b4 b6 b7 b8 : bool,
    df !! "KI01_amt_deviation" = Some (int b1) /\
    df !! "KI02_night_txn" = Some (int b2) /\
    df !! "KI03_new_payee_high_amt" = Some (int b3) /\
    df !! "KI04_burst_txns" = Some (int b4) /\
    df !! "KI05_new_foreign_country"
    = Some (int (Qgtb (Scorecard.compute_ki05_score r) 0)) /\
    df !! "KI06_new_acct_high_txn" = Some (int b6) /\
    df !! "KI07_large_internal_transfer_no_dualauth" = Some (int b7) /\
    df !! "KI08_payee_risk_low_history" = Some (int b8).
Proof.
  unfold Scorecard.engineer. intros Hdf.
  repeat match type of Hdf with
         | mbind _ ?m = Ok _ =>
             let E := fresh "E" in
             destruct m eqn:E; [simpl in Hdf | discriminate]
         end.
  injection Hdf as <-.
  unfold Scorecard.KI01_amt_deviation, Scorecard.KI02_night_txn,
    Scorecard.KI03_new_payee_high_amt, Scorecard.KI04_burst_txns,
    Scorecard.KI06_new_acct_high_txn,
    Scorecard.KI07_large_internal_transfer_no_dualauth,
    Scorecard.KI08_payee_risk_low_history in *.
  repeat match goal with
         | E : mbind _ _ = Ok _ |- _ => invert_indicator E
         end.
  do 7 eexists. repeat split; lookup_columns; reflexivity.
Qed.

(** X17. On every row the scorecard accepts, the raw score is at least
    the dynamic country score and at most 195 (the sum of the weights)
    above it; when the dynamic score is positive the weight 40 of the
    boolean KI05 comes on top of it, and when it is 0 the raw score
    stays within 155. *)
Theorem scorecard_raw_score_range (r : Scorecard.Row) (s : Scorecard.Scored) :
  Scorecard.score_row r = Ok s ->
  let dynamic := Scorecard.compute_ki05_score r in
  let raw := Scorecard.scored_raw s in
  0 <= dynamic /\
  dynamic <= raw /\ raw <= 195 + dynamic /\
  (0 < dynamic -> 40 + dynamic <= raw) /\
  (dynamic == 0 -> raw <= 155).
Proof.
  intros Hs dynamic raw.
  assert (Hdyn : 0 <= dynamic)
    by (apply ki05_score_nonneg, country_risk_nonneg).
  pose proof (scorecard_script_raw_score r s Hs) as Hraw.
  fold dynamic raw in Hraw.
  unfold Scorecard.score_row in Hs.
  destruct (Scorecard.engineer r) as [df |] eqn:Hdf; [| discriminate].
  simpl in Hs.
  destruct (Scorecard.raw_score Scorecard.ki_weights df) as [raw' |];
    [| discriminate].
  simpl in Hs. injection Hs as <-. simpl in Hraw.
  destruct (engineer_indicators r df Hdf)
    as (b1 & b2 & b3 & b4 & b6 & b7 & b8
        & H1 & H2 & H3 & H4 & H5 & H6 & H7 & H8).
  unfold Scorecard.ki_weights, weighted_sum, get in Hraw.
  rewrite H1, H2, H3, H4, H5, H6, H7, H8 in Hraw.
  fold dynamic in Hraw.
  pose proof (int_bounds b1). pose proof (int_bounds b2).
  pose proof (int_bounds b3). pose proof (int_bounds b4).
  pose proof (int_bounds b6). pose proof (int_bounds b7).
  pose proof (int_bounds b8).
  split; [exact Hdyn |].
  case_cmp (Qgtb dynamic 0); simpl in Hraw;
    (split; [lra |]); (split; [lra |]); split; intros; lra.
Qed.

Lemma scorecard_raw_score_range_witness :
  let r := {| Scorecard.REQUESTED_AMOUNT_US_INTL := Some 500;
              Scorecard.account_mean_amt := Some 100;
              Scorecard.account_std_amt := Some 10;
              Scorecard.hour := Some 2;
              Scorecard.is_new_party := Some true;
              Scorecard.txn_count_24h := Some 1;
              Scorecard.prev_foreign_countries := Some "USA,UK";
              Scorecard.curr_foreign_countries := Some "USA,UK,NG";
              Scorecard.acct_creation_days_ago := Some 100;
              Scorecard.approval_flag := Some true;
              Scorecard.payee_usage_count := Some 10 |} in
  exists s : Scorecard.Scored,
    Scorecard.score_row r = Ok s /\
    Scorecard.compute_ki05_score r <= Scorecard.scored_raw s /\
    Scorecard.scored_raw s <= 195 + Scorecard.compute_ki05_score r.
Proof.
  intros r.
  assert (Hs : exists s, Scorecard.score_row r = Ok s).
  { assert (Hok : is_ok (Scorecard.score_row r) = true) by reflexivity.
    destruct (Scorecard.score_row r) as [s |]; [| discriminate Hok].
    exists s. reflexivity. }
  destruct Hs as [s Hs]. exists s. split; [exact Hs |].
  destruct (scorecard_raw_score_range r s Hs) as (_ & Hlow & Hhigh & _).
  split; assumption.
Defined.

(** ** Splitting a column at its commas *)

Lemma split_nonempty (sep : ascii) (s : string) : split sep s <> [].
Proof.
  destruct s as [| c rest]; simpl; [discriminate |].
  destruct (Ascii.eqb c sep); [discriminate |].
  destruct (split sep rest); discriminate.
Qed.

Lemma join_push (sep c : ascii) (w : string) (ws : list string) :
  join sep (String c w :: ws) = String c (join sep (w :: ws)).
Proof. destruct ws; reflexivity. Qed.

Lemma split_join (sep : ascii) (s : string) : join sep (split sep s) = s.
Proof.
  induction s as [| c rest IH]; [reflexivity |].
  simpl. pose proof (split_nonempty sep rest) as Hne.
  destruct (Ascii.eqb_spec c sep) as [-> | Hc].
  - destruct (split sep rest) as [| w ws]; [contradiction |].
    change (join sep (EmptyString :: w :: ws))
      with (String sep (join sep (w :: ws))).
    rewrite IH. reflexivity.
  - destruct (split sep rest) as [| w ws]; [contradiction |].
    rewrite join_push, IH. reflexivity.
Qed.

Lemma split_length (sep : ascii) (s : string) :
  length (split sep s) = S (occurrences sep s).
Proof.
  induction s as [| c rest IH]; [reflexivity |].
  simpl. pose proof (split_nonempty sep rest) as Hne.
  destruct (Ascii.eqb c sep); simpl.
  - rewrite IH. reflexivity.
  - destruct (split sep rest) as [| w ws]; [contradiction |].
    simpl in *. exact IH.
Qed.

Lemma split_pieces (sep : ascii) (s : string) :
  Forall (fun piece => occurrences sep piece = 0%nat) (split sep s).
Proof.
  induction s as [| c rest IH]; [repeat constructor |].
  simpl. pose proof (split_nonempty sep rest) as Hne.
  destruct (Ascii.eqb c sep) eqn:Hc.
  - constructor; [reflexivity | exact IH].
  - destruct (split sep rest) as [| w ws]; [contradiction |].
    apply Forall_cons_1 in IH. destruct IH as [Hw Hws].
    constructor; [| exact Hws]. simpl. rewrite Hc, Hw. reflexivity.
Qed.

(** X18. Splitting a column at its commas loses nothing: joining the
    pieces with commas gives the column back, there is one piece more
    than there are commas (so at least one, the empty string for an
    empty column), and no piece contains a comma. *)
Theorem split_round_trip (s : string) :
  join "," (split "," s) = s /\
  length (split "," s) = S (occurrences "," s) /\
  Forall (fun piece => occurrences "," piece = 0%nat) (split "," s).
Proof.
  split; [apply split_join |].
  split; [apply split_length | apply split_pieces].
Qed.

Lemma size_list_to_set_le (pieces : list string) :
  (size (list_to_set pieces : gset string) <= length pieces)%nat.
Proof.
  induction pieces as [| p rest IH].
  - rewrite list_to_set_nil, size_empty. simpl. lia.
  - rewrite list_to_set_cons.
    pose proof (size_union_alt ({[p]} : gset string) (list_to_set rest)) as Hu.
    pose proof (subseteq_size (list_to_set rest ∖ {[p]} : gset string)
                  (list_to_set rest)) as Hd.
    rewrite size_singleton in Hu.
    assert (Hsub : (list_to_set rest ∖ {[p]} : gset string)
                   ⊆ list_to_set rest)
      by (intros x; rewrite elem_of_difference; tauto).
    specialize (Hd Hsub). simpl. lia.
Qed.

(** X19. The number of prior countries that picks the factor is never
    0: a column counts at least one entry and at most one more than it
    has commas.  So a sheet without the prior column, an empty prior
    column and any prior column with at most one comma all get the
    factor 1.2. *)
Theorem prior_count_bounds (cell : option string) :
  (1 <= size (countries cell))%nat /\
  (size (countries cell)
   <= S (occurrences "," (Scorecard.text_or_empty cell)))%nat /\
  ((occurrences "," (Scorecard.text_or_empty cell) <= 1)%nat ->
   Scorecard.scaling (size (countries cell)) = 1.2).
Proof.
  assert (Hupper : (size (countries cell)
                    <= S (occurrences "," (Scorecard.text_or_empty cell)))%nat).
  { unfold countries. rewrite <- split_length. apply size_list_to_set_le. }
  split; [| split; [exact Hupper |]].
  - unfold countries.
    pose proof (split_nonempty "," (Scorecard.text_or_empty cell)) as Hne.
    destruct (split "," (Scorecard.text_or_empty cell)) as [| p rest];
      [contradiction |].
    rewrite list_to_set_cons.
    destruct (size ({[p]} ∪ list_to_set rest : gset string)) eqn:Hsize;
      [| lia].
    apply size_empty_inv in Hsize. exfalso.
    apply (not_elem_of_empty (C := gset string) p). rewrite <- Hsize.
    apply elem_of_union_l, elem_of_singleton. reflexivity.
  - intros Hcommas. apply scaling_cases. lia.
Qed.

Lemma prior_count_bounds_witness :
  Scorecard.scaling (size (countries None)) = 1.2 /\
  Scorecard.scaling (size (countries (Some "NG,CN"))) = 1.2.
Proof.
  split.
  - apply (proj2 (proj2 (prior_count_bounds None))). simpl. lia.
  - apply (proj2 (proj2 (prior_count_bounds (Some "NG,CN")))). simpl. lia.
Defined.

(** ** The shape of the logistic score *)

Section LogisticShape.
Local Open Scope R_scope.

Lemma logistic_around_midpoint (d : R) :
  Pipeline.logistic (5 + d) + Pipeline.logistic (5 - d) = 100.
Proof.
  unfold Pipeline.logistic. rewrite minus_tenth.
  replace (- (1 / 10) * (5 + d - 5)) with (- (d / 10)) by lra.
  replace (- (1 / 10) * (5 - d - 5)) with (d / 10) by lra.
  rewrite exp_Ropp.
  pose proof (exp_pos (d / 10)) as Hpos.
  field. split; lra.
Qed.

Lemma logistic_at_midpoint : Pipeline.logistic 5 = 50.
Proof.
  pose proof (logistic_around_midpoint 0) as Hsym.
  replace (5 + 0) with 5 in Hsym by lra.
  replace (5 - 0) with 5 in Hsym by lra.
  lra.
Qed.

(** X20. The logistic score is symmetric about the raw score 5: the
    scores of [5 + d] and [5 - d] add up to 100 and a raw score of 5
    scores 50, so every row with a raw score of at least 5 scores at
    least 50 and is never Low Risk, while a row with a raw score of at
    most 5 scores at most 50 and is never High Risk. *)
Theorem logistic_midpoint_symmetry :
  (forall d : R,
     Pipeline.logistic (5 + d) + Pipeline.logistic (5 - d) = 100) /\
  Pipeline.logistic 5 = 50 /\
  (forall raw : R,
     5 <= raw ->
     50 <= Pipeline.logistic raw /\
     Pipeline.band_real (Pipeline.logistic raw) <> LowRisk) /\
  (forall raw : R,
     raw <= 5 ->
     Pipeline.logistic raw <= 50 /\
     Pipeline.band_real (Pipeline.logistic raw) <> HighRisk).
Proof.
  split; [exact logistic_around_midpoint |].
  split; [exact logistic_at_midpoint |].
  split.
  - intros raw Hraw.
    pose proof (logistic_monotone 5 raw Hraw) as Hge.
    rewrite logistic_at_midpoint in Hge.
    split; [exact Hge |].
    unfold Pipeline.band_real.
    destruct (Rle_dec 71 (Pipeline.logistic raw)); [discriminate |].
    destruct (Rle_dec 41 (Pipeline.logistic raw)); [discriminate | lra].
  - intros raw Hraw.
    pose proof (logistic_monotone raw 5 Hraw) as Hle.
    rewrite logistic_at_midpoint in Hle.
    split; [exact Hle |].
    unfold Pipeline.band_real.
    destruct (Rle_dec 71 (Pipeline.logistic raw)); [lra |].
    destruct (Rle_dec 41 (Pipeline.logistic raw)); discriminate.
Qed.

Lemma logistic_midpoint_symmetry_witness :
  50 <= Pipeline.logistic 26 /\
  Pipeline.band_real (Pipeline.logistic 26) <> LowRisk.
Proof.
  apply (proj1 (proj2 (proj2 logistic_midpoint_symmetry))). lra.
Defined.

End LogisticShape.

(** ** Indicators that fire together *)

Lemma int_one (b : bool) : int b = 1 -> b = true.
Proof. destruct b; [reflexivity | discriminate]. Qed.

(** X21. Two indicators of the loop never fire alone.  Whenever KI06
    (account at most 3 days old with more than 3 transactions in 24
    hours) is 1, so is KI08 (at most 7 days, more than 2); whenever
    KI05 (first foreign transaction to a listed country) is 1, so is
    KI11 (listed country).  Such a row carries both weights. *)
Theorem pipeline_indicators_that_imply_others (t : Pipeline.Txn)
    (profile : Pipeline.Profile) (context : Pipeline.Context) :
  let indicators := Pipeline.kis t profile context in
  (indicators !! "KI06" = Some 1 -> indicators !! "KI08" = Some 1) /\
  (indicators !! "KI05" = Some 1 -> indicators !! "KI11" = Some 1).
Proof.
  intros indicators. subst indicators. unfold Pipeline.kis.
  split; lookup_columns; intros Hone;
    injection Hone as Hone; apply int_one, andb_true_iff in Hone;
    destruct Hone as [Hleft Hright].
  - apply Qleb_true in Hleft. apply Qgtb_true in Hright.
    assert (Hage : Qleb (Pipeline.txn_get (Pipeline.acct_creation_days_ago t)
                           100) 7 = true) by (apply Qleb_true; lra).
    assert (Hcount : Qgtb (Pipeline.txn_get (Pipeline.txn_count_24h t) 0) 2
                     = true) by (apply Qgtb_true; lra).
    rewrite Hage, Hcount. reflexivity.
  - unfold Pipeline.country_in in *.
    destruct (Pipeline.country_cd t) as [code |]; [| discriminate].
    cbn [existsb] in *.
    repeat match type of Hleft with
           | (?a || _)%bool = true =>
               destruct a; [reflexivity | cbn [orb] in Hleft |- *]
           end.
    discriminate.
Qed.

Lemma pipeline_indicators_that_imply_others_witness :
  let t :=
    {| Pipeline.ACCOUNT_KEY := 7; Pipeline.PARTY_KEY := 3;
       Pipeline.REQUESTED_AMOUNT_US_INTL := 900;
       Pipeline.TRANSACTION_LOCAL_DATE_TIME := 1735700000;
       Pipeline.CHANNEL := "web"; Pipeline.CURRENCY_CD := "USD";
       Pipeline.activity_days_ago := None; Pipeline.txn_sum_24h := None;
       Pipeline.country_cd := Some "NG";
       Pipeline.is_first_foreign_txn := Some true;
       Pipeline.acct_creation_days_ago := Some 2;
       Pipeline.txn_count_24h := Some 6;
       Pipeline.unique_payees_24h := None;
       Pipeline.payee_usage_count := None; Pipeline.large_txns_2h := None;
       Pipeline.is_known_name_new_account := None;
       Pipeline.approval_flag := None |} in
  let indicators :=
    Pipeline.kis t (Pipeline.profile_of ∅ t) (Pipeline.fresh_context 0) in
  indicators !! "KI08" = Some 1 /\ indicators !! "KI11" = Some 1.
Proof.
  intros t indicators.
  destruct (pipeline_indicators_that_imply_others t (Pipeline.profile_of ∅ t)
              (Pipeline.fresh_context 0)) as [H68 H511].
  split; [apply H68 | apply H511]; reflexivity.
Defined.

(** ** The profile builder *)

Lemma insert_key_elem (k k' : Z) (keys : list Z) :
  k' ∈ Profiles.insert_key k keys <-> k' = k \/ k' ∈ keys.
Proof.
  induction keys as [| h rest IH]; simpl.
  - rewrite list_elem_of_singleton, elem_of_nil. tauto.
  - destruct (Z.ltb_spec k h) as [Hlt | Hge].
    + rewrite !elem_of_cons. tauto.
    + destruct (Z.eqb_spec k h) as [-> | Hne].
      * rewrite !elem_of_cons. tauto.
      * rewrite !elem_of_cons, IH. tauto.
Qed.

Lemma insert_key_sorted (k : Z) (keys : list Z) :
  StronglySorted Z.lt keys -> StronglySorted Z.lt (Profiles.insert_key k keys).
Proof.
  induction 1 as [| h rest Hrest IH Hh]; simpl.
  - repeat constructor.
  - destruct (Z.ltb_spec k h) as [Hlt | Hge].
    + constructor; [constructor; assumption |].
      constructor; [exact Hlt |].
      eapply Forall_impl; [exact Hh |]. intros x Hx. simpl in Hx. lia.
    + destruct (Z.eqb_spec k h) as [-> | Hne].
      * constructor; assumption.
      * constructor; [exact IH |].
        apply Forall_forall. intros x Hx.
        apply insert_key_elem in Hx. destruct Hx as [-> | Hx]; [lia |].
        rewrite Forall_forall in Hh. apply Hh, Hx.
Qed.

Lemma accounts_elem (df : list Profiles.Txn) (k : Z) :
  k ∈ Profiles.accounts df <->
  exists t : Profiles.Txn, t ∈ df /\ Profiles.ACCOUNT_KEY t = k.
Proof.
  unfold Profiles.accounts.
  induction df as [| t rest IH]; simpl.
  - rewrite elem_of_nil. split; [contradiction |].
    intros (t & Hin & _). apply elem_of_nil in Hin. contradiction.
  - rewrite insert_key_elem, IH. split.
    + intros [-> | (u & Hin & Hu)].
      * exists t. split; [apply list_elem_of_here | reflexivity].
      * exists u. split; [apply list_elem_of_further, Hin | exact Hu].
    + intros (u & Hin & Hu). apply elem_of_cons in Hin.
      destruct Hin as [-> | Hin]; [left; auto | right; eauto].
Qed.

Lemma accounts_sorted (df : list Profiles.Txn) :
  StronglySorted Z.lt (Profiles.accounts df).
Proof.
  unfold Profiles.accounts.
  induction df as [| t rest IH]; simpl; [constructor |].
  apply insert_key_sorted, IH.
Qed.

(** X22. The profile sheet has exactly one row for every account that
    occurs in the 2024 transactions and no other row, and its rows come
    in strictly ascending account order. *)
Theorem profiles_one_row_per_account (df_2024 : list Profiles.Txn) :
  StronglySorted Z.lt (Profiles.account <$> Profiles.profiles df_2024) /\
  (forall k : Z,
     k ∈ (Profiles.account <$> Profiles.profiles df_2024) <->
     exists t : Profiles.Txn, t ∈ df_2024 /\ Profiles.ACCOUNT_KEY t = k).
Proof.
  assert (Hkeys : Profiles.account <$> Profiles.profiles df_2024
                  = Profiles.accounts df_2024).
  { unfold Profiles.profiles. rewrite <- list_fmap_compose.
    apply list_fmap_id. }
  rewrite Hkeys. split; [apply accounts_sorted |].
  intros k. apply accounts_elem.
Qed.

Lemma count_cons (x : Q) (xs : list Q) :
  Profiles.count (x :: xs) == 1 + Profiles.count xs.
Proof.
  unfold Profiles.count. simpl length.
  rewrite Nat2Z.inj_succ, <- Z.add_1_l, inject_Z_plus. reflexivity.
Qed.

Lemma count_nonneg (xs : list Q) : 0 <= Profiles.count xs.
Proof.
  unfold Profiles.count.
  change 0 with (inject_Z 0). rewrite <- Zle_Qle. lia.
Qed.

Lemma sum_bounds (xs : list Q) (lo hi : Q) :
  Forall (fun x => lo <= x /\ x <= hi) xs ->
  Profiles.count xs * lo <= sum xs /\ sum xs <= Profiles.count xs * hi.
Proof.
  induction 1 as [| x rest [Hlo Hhi] _ [IHlo IHhi]].
  - split; vm_compute; discriminate.
  - rewrite sum_cons, count_cons. split; lra.
Qed.

(** X23. The mean amount of an account is NaN exactly when the account
    has no usable amount.  When the amounts are whole numbers (of at
    most a billion, at most a million of them) the mean lies between
    any two whole numbers that bound all of them, their smallest and
    their largest in particular. *)
Theorem mean_between_bounds (xs : list Q) (lo hi : Z) :
  (Profiles.mean xs = None <-> xs = []) /\
  (whole_amounts xs ->
   xs <> [] ->
   Forall (fun x => inject_Z lo <= x /\ x <= inject_Z hi) xs ->
   exists m : Q,
     Profiles.mean xs = Some m /\ inject_Z lo <= m /\ m <= inject_Z hi).
Proof.
  split.
  - destruct xs; simpl; split; intros; congruence.
  - intros _ Hne Hall. destruct xs as [| x rest]; [contradiction |].
    eexists. split; [reflexivity |].
    destruct (sum_bounds _ _ _ Hall) as [Hlo Hhi].
    assert (Hpos : 0 < Profiles.count (x :: rest)).
    { rewrite count_cons. pose proof (count_nonneg rest). lra. }
    split.
    + apply Qle_shift_div_l; [exact Hpos |]. lra.
    + apply Qle_shift_div_r; [exact Hpos |]. lra.
Qed.

Lemma mean_between_bounds_witness :
  exists m : Q,
    Profiles.mean [120; 80; 250] = Some m /\
    inject_Z 80 <= m /\ m <= inject_Z 250.
Proof.
  apply (proj2 (mean_between_bounds [120; 80; 250] 80 250)).
  - split; [| simpl; lia].
    repeat (apply Forall_cons_2;
            [eexists; split; [reflexivity | simpl; lia] |]).
    apply Forall_nil_2.
  - discriminate.
  - repeat constructor; discriminate.
Defined.

Lemma sum_of_equal (xs : list Q) (a : Q) :
  Forall (fun x => x == a) xs -> sum xs == Profiles.count xs * a.
Proof.
  induction 1 as [| x rest Hx _ IH].
  - vm_compute. reflexivity.
  - rewrite sum_cons, count_cons, IH, Hx. ring.
Qed.

Lemma sum_of_zeros (xs : list Q) : Forall (fun x => x == 0) xs -> sum xs == 0.
Proof.
  intros Hzero. rewrite (sum_of_equal xs 0 Hzero). ring.
Qed.

Lemma count_two (xs : list Q) :
  (2 <= length xs)%nat -> 2 <= Profiles.count xs.
Proof.
  intros Hlen. unfold Profiles.count.
  change 2 with (inject_Z 2). rewrite <- Zle_Qle. lia.
Qed.

(** X24. The deviation of an account is NaN as long as the account has
    fewer than two usable amounts; from two amounts on it is a number
    that is never negative, and it is 0 when all the amounts are
    equal. *)
Theorem std_of_small_and_constant_groups (xs : list Q) :
  ((length xs < 2)%nat -> Profiles.std xs = None) /\
  ((2 <= length xs)%nat ->
   exists s : R, Profiles.std xs = Some s /\ (0 <= s)%R) /\
  (forall a : Q,
     (2 <= length xs)%nat -> Forall (fun x => x == a) xs ->
     Profiles.std xs = Some 0%R).
Proof.
  split; [| split].
  - intros Hlen. unfold Profiles.std.
    destruct (Profiles.mean xs); [| reflexivity].
    destruct (Nat.ltb_spec (length xs) 2); [reflexivity | lia].
  - intros Hlen. unfold Profiles.std.
    destruct xs as [| x rest]; [simpl in Hlen; lia |].
    cbn [Profiles.mean].
    destruct (Nat.ltb_spec (length (x :: rest)) 2); [lia |].
    eexists. split; [reflexivity | apply sqrt_pos].
  - intros a Hlen Hall. unfold Profiles.std.
    destruct xs as [| x rest]; [simpl in Hlen; lia |].
    cbn [Profiles.mean].
    destruct (Nat.ltb_spec (length (x :: rest)) 2); [lia |].
    set (xs := x :: rest) in *.
    pose proof (count_two xs Hlen) as Hcount.
    assert (Hmean : sum xs / Profiles.count xs == a).
    { rewrite (sum_of_equal xs a Hall). field. lra. }
    assert (Hsquares :
              sum ((fun y => (y - sum xs / Profiles.count xs)
                             * (y - sum xs / Profiles.count xs)) <$> xs)
              == 0).
    { apply sum_of_zeros, Forall_fmap.
      eapply Forall_impl; [exact Hall |].
      intros y Hy. simpl. rewrite Hmean, Hy. ring. }
    f_equal. rewrite <- sqrt_0. f_equal.
    rewrite (Qeq_eqR _ 0); [unfold Q2R; simpl; lra |].
    rewrite Hsquares. field. lra.
Qed.

Lemma std_of_small_and_constant_groups_witness :
  Profiles.std [125] = None /\ Profiles.std [40; 40; 40] = Some 0%R.
Proof.
  split.
  - apply (proj1 (std_of_small_and_constant_groups [125])). simpl. lia.
  - apply (proj2 (proj2 (std_of_small_and_constant_groups [40; 40; 40])) 40).
    + simpl. lia.
    + repeat constructor.
Defined.

Lemma occurs_absent (v : string) (values : list string) :
  v ∉ values -> Profiles.occurs v values = 0%nat.
Proof.
  intros Hnot. unfold Profiles.occurs.
  induction values as [| w rest IH]; [reflexivity |].
  rewrite not_elem_of_cons in Hnot. destruct Hnot as [Hne Hrest].
  rewrite filter_cons_False by congruence. apply IH, Hrest.
Qed.

Lemma mode_over_suffix (values suffix : list string) :
  suffix <> [] ->
  exists c : string,
    foldr (fun v best =>
             match best with
             | None => Some v
             | Some b => if Profiles.better values v b then Some v else Some b
             end) None suffix = Some c /\
    c ∈ suffix /\
    (forall d : string,
       d ∈ suffix ->
       (Profiles.occurs d values <= Profiles.occurs c values)%nat).
Proof.
  induction suffix as [| v rest IH]; [contradiction |]. intros _.
  destruct rest as [| w rest'].
  - exists v. simpl. split; [reflexivity |].
    split; [apply list_elem_of_here |].
    intros d Hd. apply list_elem_of_singleton in Hd. subst d. lia.
  - destruct IH as (b & Hb & Hin & Hmax); [discriminate |].
    cbn [foldr] in Hb |- *. rewrite Hb.
    destruct (Profiles.better values v b) eqn:Hbetter.
    + exists v. split; [reflexivity |].
      split; [apply list_elem_of_here |].
      assert (Hvb : (Profiles.occurs b values
                     <= Profiles.occurs v values)%nat).
      { unfold Profiles.better in Hbetter.
        apply orb_true_iff in Hbetter.
        destruct Hbetter as [Hlt | Heq].
        - apply Nat.ltb_lt in Hlt. lia.
        - apply andb_true_iff in Heq. destruct Heq as [Heq _].
          apply Nat.eqb_eq in Heq. lia. }
      intros d Hd. apply elem_of_cons in Hd.
      destruct Hd as [-> | Hd]; [lia |].
      specialize (Hmax d Hd). lia.
    + exists b. split; [reflexivity |].
      split; [apply list_elem_of_further, Hin |].
      assert (Hvb : (Profiles.occurs v values
                     <= Profiles.occurs b values)%nat).
      { unfold Profiles.better in Hbetter.
        apply orb_false_iff in Hbetter. destruct Hbetter as [Hlt _].
        apply Nat.ltb_ge in Hlt. exact Hlt. }
      intros d Hd. apply elem_of_cons in Hd.
      destruct Hd as [-> | Hd]; [exact Hvb | apply Hmax, Hd].
Qed.

(** X25. The typical currency of an account is ["USD"] when none of
    its rows has a currency; otherwise it is one of the currencies of
    its rows, and no currency occurs in more of its rows. *)
Theorem typical_currency_is_most_frequent (cells : list (option string)) :
  let values := omap (fun cell => cell) cells in
  (values = [] -> Profiles.typical cells = "USD") /\
  (values <> [] ->
   Some (Profiles.typical cells) ∈ cells /\
   forall d : string,
     (Profiles.occurs d values
      <= Profiles.occurs (Profiles.typical cells) values)%nat).
Proof.
  intros values. unfold Profiles.typical. fold values. split.
  - intros ->. reflexivity.
  - intros Hne. unfold Profiles.mode.
    destruct (mode_over_suffix values values Hne) as (c & Hc & Hin & Hmax).
    rewrite Hc. split.
    + unfold values in Hin. apply list_elem_of_omap in Hin.
      destruct Hin as (cell & Hcell & Heq). subst cell. exact Hcell.
    + intros d. destruct (decide (d ∈ values)) as [Hd | Hd].
      * apply Hmax, Hd.
      * rewrite (occurs_absent d values Hd). lia.
Qed.

Lemma typical_currency_is_most_frequent_witness :
  Profiles.typical [None; None] = "USD" /\
  Some (Profiles.typical [Some "EUR"; None; Some "USD"; Some "EUR"])
  ∈ [Some "EUR"; None; Some "USD"; Some "EUR"].
Proof.
  split.
  - apply (proj1 (typical_currency_is_most_frequent [None; None])).
    reflexivity.
  - apply (proj2 (typical_currency_is_most_frequent
                    [Some "EUR"; None; Some "USD"; Some "EUR"])).
    discriminate.
Defined.

Example typical_currency_tie_is_first_in_order :
  Profiles.typical [Some "USD"; Some "EUR"; Some "GBP"; Some "EUR";
                    Some "USD"] = "EUR".
Proof. reflexivity. Qed.

(** ** Blanks around a country code *)

Lemma strip_leading (w : ascii) (s : string) :
  is_space w = true -> strip (String w s) = strip s.
Proof.
  intros Hw. unfold strip. cbn [rstrip].
  destruct (rstrip s) as [| c kept].
  - rewrite Hw. reflexivity.
  - cbn [lstrip]. rewrite Hw. reflexivity.
Qed.

Lemma rstrip_trailing (w : ascii) (s : string) :
  is_space w = true -> rstrip (s ++ String w EmptyString) = rstrip s.
Proof.
  intros Hw. induction s as [| c rest IH].
  - simpl. rewrite Hw. reflexivity.
  - simpl. rewrite IH. reflexivity.
Qed.

Lemma strip_trailing (w : ascii) (s : string) :
  is_space w = true -> strip (s ++ String w EmptyString) = strip s.
Proof.
  intros Hw. unfold strip. rewrite rstrip_trailing by exact Hw. reflexivity.
Qed.

Lemma split_without_separator (sep : ascii) (s : string) :
  occurrences sep s = 0%nat -> split sep s = [s].
Proof.
  induction s as [| c rest IH]; [reflexivity |].
  simpl. destruct (Ascii.eqb c sep); [discriminate |].
  intros Hrest. rewrite (IH Hrest). reflexivity.
Qed.

Lemma string_cons_neq (w : ascii) (s : string) : String w s <> s.
Proof.
  revert w. induction s as [| c rest IH]; intros w; [discriminate |].
  intros Heq. injection Heq as _ Hrest. exact (IH c Hrest).
Qed.

(** X26. The lookup in the risk table ignores blanks around a code (a
    leading or a trailing whitespace character does not change the
    weight), but the comparison with the prior countries does not: a
    current entry that repeats the only prior entry with a blank in
    front counts as a new country and scores its weight times 1.2. *)
Theorem blanks_around_a_country_code (risk : gmap string Q) (c : string)
    (w : ascii) :
  is_space w = true ->
  Scorecard.risk_of risk (String w c) = Scorecard.risk_of risk c /\
  Scorecard.risk_of risk (c ++ String w EmptyString)
  = Scorecard.risk_of risk c /\
  (w <> ","%char -> occurrences "," c = 0%nat ->
   Scorecard.compute_ki05_score_with risk (Some c) (Some (String w c))
   == Scorecard.risk_of risk c * 1.2).
Proof.
  intros Hw. unfold Scorecard.risk_of.
  rewrite strip_leading, strip_trailing by exact Hw.
  split; [reflexivity |]. split; [reflexivity |].
  intros Hcomma Hc.
  assert (Hprev : countries (Some c) = {[c]}).
  { unfold countries. simpl.
    rewrite (split_without_separator _ _ Hc). simpl.
    apply (right_id_L ∅ (∪)). }
  assert (Hcurr : countries (Some (String w c)) = {[String w c]}).
  { unfold countries. simpl Scorecard.text_or_empty.
    rewrite split_without_separator.
    - simpl. apply (right_id_L ∅ (∪)).
    - simpl. destruct (Ascii.eqb_spec w ","%char); [contradiction | exact Hc]. }
  rewrite (ki05_score_over_enumeration risk (Some c) (Some (String w c))
             [String w c]).
  - rewrite Hprev, size_singleton. simpl.
    unfold Scorecard.risk_of. rewrite strip_leading by exact Hw.
    change (Scorecard.scaling 1) with 1.2. ring.
  - apply NoDup_singleton.
  - intros x. rewrite Hprev, Hcurr, list_elem_of_singleton, !elem_of_singleton.
    split; [| tauto].
    intros ->. split; [reflexivity | apply string_cons_neq].
Qed.

Lemma blanks_around_a_country_code_witness :
  Scorecard.compute_ki05_score_with Scorecard.country_risk
    (Some "NG") (Some " NG") == 30 * 1.2.
Proof.
  destruct (blanks_around_a_country_code Scorecard.country_risk "NG" " "
              eq_refl) as (_ & _ & Hnew).
  apply Hnew; [discriminate | reflexivity].
Defined.
